(** * Sponsor dashboard front end: leaderboard and user detail pages

    A shallow embedding of the two React pages of the dashboard
    ([Leaderboard] and [User]) and of the state changes their handlers
    perform, followed by the properties of the read-only HTTP surface
    they rely on.

    Conventions of the embedding:
    - a React state hook is a field of the page state record, a setter
      call is a record update, and a functional update
      [setX(prev => ...)] reads the state at the moment it is applied;
    - an [async] function is split where it awaits the network: the part
      before the [await] builds the request, the part after it is a
      function of the way the request settled ([FetchResult]);
    - a JavaScript object used as a record of string keys is the list of
      its own properties in enumeration order ([JsObject]);
    - [URLSearchParams] is the ordered list of its (name, value) pairs. *)

From Stdlib Require Import QArith Qround Lqa Ascii String.
From stdpp Require Import gmap strings list fin_maps pretty.

Local Open Scope Z_scope.

(** ** JSON values carried by the API responses *)

Module Json.

#[warnings="-register-all"] Inductive value : Type :=
| Null : value
| Bool : bool -> value
| Num : Q -> value
| Str : string -> value
| Arr : list value -> value
| Obj : list (string * value) -> value.

End Json.

(** ** Outcome of an awaited [fetch] followed by [response.json()] *)

Inductive FetchResult (A : Type) : Type :=
| NetworkError : FetchResult A
  (* [fetch] rejected *)
| Response (ok : bool) (status : Z) (body : option A) : FetchResult A.
  (* [body = None]: [response.json()] rejected *)

Arguments NetworkError {A}.
Arguments Response {A} ok status body.

(** ** JavaScript objects with string keys, in property enumeration order

  Own string keys are enumerated with the array indices first, in
  ascending numeric order, then every other key in insertion order. *)

Module JsObject.

Definition t (V : Type) : Type := list (string * V).

Definition is_digit (c : ascii) : bool :=
  let n := N_of_ascii c in ((48 <=? n) && (n <=? 57))%N.

Fixpoint digits_value (s : string) (acc : N) : option N :=
  match s with
  | EmptyString => Some acc
  | String c s' =>
      if is_digit c
      then digits_value s' (10 * acc + (N_of_ascii c - 48))%N
      else None
  end.

(** A canonical numeric string below 2^32 - 1. *)
Definition array_index (s : string) : option N :=
  match s with
  | EmptyString => None
  | String c s' =>
      if (N_of_ascii c =? 48)%N
      then match s' with EmptyString => Some 0%N | _ => None end
      else match digits_value s 0 with
           | Some n => if (n <=? 4294967294)%N then Some n else None
           | None => None
           end
  end.

Definition has {V} (k : string) (o : t V) : bool :=
  existsb (fun p => String.eqb (fst p) k) o.

Fixpoint replace {V} (k : string) (v : V) (o : t V) : t V :=
  match o with
  | [] => []
  | (k', v') :: o' =>
      if String.eqb k' k then (k', v) :: o' else (k', v') :: replace k v o'
  end.

Fixpoint insert_index {V} (n : N) (k : string) (v : V) (o : t V) : t V :=
  match o with
  | [] => [(k, v)]
  | (k', v') :: o' =>
      match array_index k' with
      | Some m =>
          if (m <? n)%N then (k', v') :: insert_index n k v o'
          else (k, v) :: o
      | None => (k, v) :: o
      end
  end.

(** [o[k] = v] *)
Definition set {V} (k : string) (v : V) (o : t V) : t V :=
  if has k o then replace k v o
  else match array_index k with
       | Some n => insert_index n k v o
       | None => o ++ [(k, v)]
       end.

(** [Object.entries(o)] *)
Definition entries {V} (o : t V) : list (string * V) := o.

Definition keys {V} (o : t V) : list string := map fst o.

End JsObject.

(** ** [URLSearchParams] *)

Module URLSearchParams.

Definition t : Type := list (string * string).

(** [new URLSearchParams({ ... })] from a record literal *)
Definition of_record (r : list (string * string)) : t := r.

Definition append (k v : string) (q : t) : t := q ++ [(k, v)].

Definition getAll (k : string) (q : t) : list string :=
  map snd (List.filter (fun p => String.eqb (fst p) k) q).

Definition get (k : string) (q : t) : option string := head (getAll k q).

End URLSearchParams.

(** ** The leaderboard page (Leaderboard component) *)

Module Leaderboard.

(** A user object of the list-users response, and a displayed row: the
    own properties of the object, by name. *)
Abbreviation UserObject := (gmap string Json.value).

(** [Object.entries(user)] *)
Definition Object_entries (o : UserObject) : list (string * Json.value) :=
  map_to_list o.

(** [Object.fromEntries(l)]: properties are defined in the order of
    the list, a later entry overwriting an earlier one of the same name. *)
Definition Object_fromEntries (l : list (string * Json.value)) : UserObject :=
  foldl (fun m kv => <[kv.1 := kv.2]> m) ∅ l.

(** [value === null ? "None" : value === "Organization" ? "Org" : value] *)
Definition mapValue (value : Json.value) : Json.value :=
  match value with
  | Json.Null => Json.Str "None"
  | Json.Str s => if String.eqb s "Organization" then Json.Str "Org" else value
  | _ => value
  end.

Definition mapUser (user : UserObject) : UserObject :=
  Object_fromEntries (map (fun kv => (kv.1, mapValue kv.2)) (Object_entries user)).

(** Body of a list-users response: [{ users: [], total: number }] *)
Record ListUsersBody : Type := {
  body_users : list UserObject;
  body_total : Z
}.

(** [TablePaginationConfig]: every field is optional. *)
Record TablePaginationConfig : Type := {
  current : option Z;
  pageSize : option Z;
  total : option Z
}.

(** A filter option of a column, and an element of [locationFilters]. *)
Record Location : Type := { text : string; value : string }.

Inductive SortOrder : Type := descend | ascend.

Definition SortOrder_str (o : SortOrder) : string :=
  match o with descend => "descend" | ascend => "ascend" end.

Record LeaderboardStatsData : Type := {
  total_users : Z;
  total_sponsorships : Z;
  top_sponsored : string * string * Z;
  top_sponsoring : string * string * Z
}.

(** [FilterValue | null]: an array of selected values, or null. The
    values are those of the filter options of the columns, all strings
    in this table, and fetchUsers reads them as [string[]]. *)
Abbreviation FilterValue := (option (list string)).

(** The state hooks of the component. *)
Record State : Type := {
  loading : bool;
  users : list UserObject;
  filters : JsObject.t FilterValue;
  locationFilters : list Location;
  sorters : JsObject.t (option SortOrder);
  leaderboardData : option LeaderboardStatsData;
  pagination : TablePaginationConfig
}.

(** Default pagination values, and the state at the first render. *)
Definition initialPagination : TablePaginationConfig :=
  {| current := Some 1; pageSize := Some 10; total := Some 0 |}.

Definition initialState : State :=
  {| loading := false; users := []; filters := []; locationFilters := [];
     sorters := []; leaderboardData := None; pagination := initialPagination |}.

Definition setLoading (b : bool) (st : State) : State :=
  {| loading := b; users := users st; filters := filters st;
     locationFilters := locationFilters st; sorters := sorters st;
     leaderboardData := leaderboardData st; pagination := pagination st |}.

Definition setUsers (us : list UserObject) (st : State) : State :=
  {| loading := loading st; users := us; filters := filters st;
     locationFilters := locationFilters st; sorters := sorters st;
     leaderboardData := leaderboardData st; pagination := pagination st |}.

Definition setFilters (f : JsObject.t FilterValue) (st : State) : State :=
  {| loading := loading st; users := users st; filters := f;
     locationFilters := locationFilters st; sorters := sorters st;
     leaderboardData := leaderboardData st; pagination := pagination st |}.

Definition setLocationFilters (l : list Location) (st : State) : State :=
  {| loading := loading st; users := users st; filters := filters st;
     locationFilters := l; sorters := sorters st;
     leaderboardData := leaderboardData st; pagination := pagination st |}.

Definition setSorters (s : JsObject.t (option SortOrder)) (st : State) : State :=
  {| loading := loading st; users := users st; filters := filters st;
     locationFilters := locationFilters st; sorters := s;
     leaderboardData := leaderboardData st; pagination := pagination st |}.

Definition setLeaderboardData (d : LeaderboardStatsData) (st : State) : State :=
  {| loading := loading st; users := users st; filters := filters st;
     locationFilters := locationFilters st; sorters := sorters st;
     leaderboardData := Some d; pagination := pagination st |}.

(** [setPagination(prev => f prev)] *)
Definition setPagination (f : TablePaginationConfig -> TablePaginationConfig)
    (st : State) : State :=
  {| loading := loading st; users := users st; filters := filters st;
     locationFilters := locationFilters st; sorters := sorters st;
     leaderboardData := leaderboardData st; pagination := f (pagination st) |}.

(** [x || d] on an optional number: undefined and 0 are falsy. *)
Definition or_default (x : option Z) (d : Z) : Z :=
  match x with
  | Some n => if n =? 0 then d else n
  | None => d
  end.

(** [n.toString()] for an integer: its decimal digits (JavaScript prints
    integers this way below 10^21). *)
Definition toString (n : Z) : string := pretty n.

(** *** fetchUsers, up to the awaited request: the query it builds *)

Definition appendFilter (q : URLSearchParams.t) (kv : string * FilterValue)
    : URLSearchParams.t :=
  match kv.2 with
  | Some ((_ :: _) as value) =>
      foldl (fun q v => URLSearchParams.append kv.1 v q) q value
  | _ => q
  end.

Definition appendSorter (q : URLSearchParams.t) (fo : string * option SortOrder)
    : URLSearchParams.t :=
  match fo.2 with
  | Some order =>
      URLSearchParams.append "sortOrder" (SortOrder_str order)
        (URLSearchParams.append "sortField" fo.1 q)
  | None => q
  end.

Definition queryParams (currentPagination : TablePaginationConfig)
    (currentFilters : JsObject.t FilterValue)
    (currentSorters : JsObject.t (option SortOrder)) : URLSearchParams.t :=
  let q0 := URLSearchParams.of_record
              [("page", toString (or_default (current currentPagination) 1));
               ("per_page", toString (or_default (pageSize currentPagination) 10))] in
  let q1 := foldl appendFilter q0 (JsObject.entries currentFilters) in
  foldl appendSorter q1 (JsObject.entries currentSorters).

(** fetchUsers up to [await fetch(...)]: the loading flag is raised and
    the request is issued with the query. *)
Definition fetchUsers (currentPagination : TablePaginationConfig)
    (currentFilters : JsObject.t FilterValue)
    (currentSorters : JsObject.t (option SortOrder))
    (st : State) : State * URLSearchParams.t :=
  (setLoading true st, queryParams currentPagination currentFilters currentSorters).

(** *** fetchUsers, after the awaited request settled *)

Definition fetchUsers_settled (r : FetchResult ListUsersBody) (st : State) : State :=
  match r with
  | Response true _ (Some data) =>
      let mappedUsers := map mapUser (body_users data) in
      setLoading false
        (setPagination
           (fun prev => {| current := current prev; pageSize := pageSize prev;
                           total := Some (body_total data) |})
           (setUsers mappedUsers st))
  | _ => setLoading false st
  end.

(** The list-users request the effect issues for a state: the effect
    depends on the page, the page size, the filters and the sorters. *)
Definition usersRequest (st : State) : URLSearchParams.t :=
  (fetchUsers (pagination st) (filters st) (sorters st) st).2.

(** *** getLocations, after the awaited request settled *)

Definition getLocations_settled (r : FetchResult (list string)) (st : State) : State :=
  match r with
  | Response true _ (Some data) =>
      let locationData :=
      map (fun location => {| text := location; value := location |}) data in
      setLocationFilters locationData st
  | _ => st
  end.

(** *** The columns of the table *)

Inductive Sorter : Type :=
| NoSorter : Sorter
| SorterTrue : Sorter                 (* [sorter: true] *)
| SorterMultiple : Z -> Sorter.       (* [sorter: { multiple: n }] *)

Record ColumnType : Type := {
  title : string;
  dataIndex : string;
  key : string;
  width : Z;
  column_filters : option (list Location);
  column_sorter : Sorter
}.

(** The [columns] constant; the location column reads the
    [locationFilters] state. *)
Definition columns (locationFilters : list Location) : list ColumnType :=
  [ {| title := "Username"; dataIndex := "username"; key := "username"; width := 115;
       column_filters := None; column_sorter := SorterTrue |};
    {| title := "Name"; dataIndex := "name"; key := "name"; width := 110;
       column_filters := None; column_sorter := SorterTrue |};
    {| title := "Type"; dataIndex := "type"; key := "type"; width := 70;
       column_filters := Some [ {| text := "User"; value := "User" |};
                                {| text := "Organization"; value := "Organization" |} ];
       column_sorter := NoSorter |};
    {| title := "Gender"; dataIndex := "gender"; key := "gender"; width := 85;
       column_filters := Some [ {| text := "Male"; value := "Male" |};
                                {| text := "Female"; value := "Female" |};
                                {| text := "Other"; value := "Other" |};
                                {| text := "Unknown"; value := "Unknown" |} ];
       column_sorter := NoSorter |};
    {| title := "Location"; dataIndex := "location"; key := "location"; width := 110;
       column_filters := Some locationFilters; column_sorter := NoSorter |};
    {| title := "Followers"; dataIndex := "followers"; key := "followers"; width := 100;
       column_filters := None; column_sorter := SorterMultiple 2 |};
    {| title := "Following"; dataIndex := "following"; key := "following"; width := 100;
       column_filters := None; column_sorter := SorterMultiple 2 |};
    {| title := "Repos"; dataIndex := "public_repos"; key := "repos"; width := 75;
       column_filters := None; column_sorter := SorterMultiple 1 |};
    {| title := "Sponsors"; dataIndex := "total_sponsors"; key := "sponsors"; width := 100;
       column_filters := None; column_sorter := SorterMultiple 2 |};
    {| title := "Sponsoring"; dataIndex := "total_sponsoring"; key := "sponsoring";
       width := 110; column_filters := None; column_sorter := SorterMultiple 2 |};
    {| title := "Earnings (Estimate)"; dataIndex := "estimated_earnings"; key := "earnings";
       width := 165; column_filters := None; column_sorter := SorterMultiple 3 |} ].

(** The column of a given [key]. *)
Definition column (k : string) (locationFilters : list Location) : option ColumnType :=
  List.find (fun c => String.eqb (key c) k) (columns locationFilters).

(** The values the filter menu of a column offers. *)
Definition filterValues (k : string) (locationFilters : list Location) : list string :=
  match column k locationFilters with
  | Some c => match column_filters c with
              | Some fs => map value fs
              | None => []
              end
  | None => []
  end.

(** *** The earnings cell

    [estimated_earnings] is a number read from JSON, a finite double and
    so a rational. On such a value [Math.round] is exact: the nearest
    integer, a tie going to the larger one. *)
Definition Math_round (x : Q) : Z := Qfloor (x + (1 # 2)).

(** The dollar amount of the cell, and the text rendered. *)
Definition earningsAmount (estimated_earnings : Q) : Z := Math_round estimated_earnings.

Definition renderEarnings (estimated_earnings : Q) : string :=
  "$" +:+ pretty (earningsAmount estimated_earnings) +:+ "+ USD/mo".

(** *** handleTableChange *)

(** [Key] and the [field] of a sorter result: a key or a path of keys. *)
Inductive Key : Type := KStr (s : string) | KNum (n : Z).

Inductive Field : Type := FieldKey (k : Key) | FieldPath (p : list Key).

Record SorterResult : Type := {
  field : option Field;
  order : option SortOrder
}.

(** The table passes one sorter result, or an array of them. *)
Inductive SorterArg : Type :=
| Single (s : SorterResult)
| Multiple (l : list SorterResult).

Definition String_of_key (k : Key) : string :=
  match k with KStr s => s | KNum n => pretty n end.

(** Truthiness of [s.field]: an array is truthy, the empty string and
    0 are not. *)
Definition field_truthy (f : Field) : bool :=
  match f with
  | FieldKey (KStr s) => negb (String.eqb s "")
  | FieldKey (KNum n) => negb (n =? 0)
  | FieldPath _ => true
  end.

(** [Array.isArray(s.field) ? s.field.join('.') : String(s.field)] *)
Definition field_key (f : Field) : string :=
  match f with
  | FieldKey k => String_of_key k
  | FieldPath p => String.concat "." (map String_of_key p)
  end.

Definition sortersArray (newSorters : SorterArg) : list SorterResult :=
  match newSorters with Single s => [s] | Multiple l => l end.

Definition formatSorter (acc : JsObject.t (option SortOrder)) (s : SorterResult)
    : JsObject.t (option SortOrder) :=
  match field s, order s with
  | Some f, Some o =>
      if field_truthy f then JsObject.set (field_key f) (Some o) acc else acc
  | _, _ => acc
  end.

Definition formattedSorters (newSorters : SorterArg) : JsObject.t (option SortOrder) :=
  foldl formatSorter [] (sortersArray newSorters).

Definition handleTableChange (_pagination : TablePaginationConfig)
    (newFilters : JsObject.t FilterValue) (newSorters : SorterArg)
    (st : State) : State :=
  setPagination
    (fun prev => {| current := Some 1; pageSize := pageSize prev; total := total prev |})
    (setFilters newFilters (setSorters (formattedSorters newSorters) st)).

(** What the table reports for a column of [columns] whose sort order
    is [o]: the column's [dataIndex] as the field. *)
Definition sorterResultOf (co : ColumnType * option SortOrder) : SorterResult :=
  {| field := Some (FieldKey (KStr (dataIndex co.1))); order := co.2 |}.

(** *** The brief-stats refresh loop (getLeaderboardStats)

    The page together with what the event loop holds for it: the
    brief-stats requests in flight and the pending timers. *)

Inductive Callback : Type := cb_getLeaderboardStats.

Record Timer : Type := { callback : Callback; delay : Z }.

Record Loop : Type := {
  page : State;
  inflight : nat;        (* brief-stats fetches awaited *)
  timers : list Timer;   (* pending [setTimeout] calls *)
  issued : nat;          (* brief-stats fetches issued so far *)
  errors : nat           (* [console.error] calls of the loop *)
}.

(** getLeaderboardStats up to [await fetch(...)]. *)
Definition getLeaderboardStats (l : Loop) : Loop :=
  {| page := page l; inflight := S (inflight l); timers := timers l;
     issued := S (issued l); errors := errors l |}.

(** getLeaderboardStats after the awaited request settled. *)
Definition getLeaderboardStats_settled (r : FetchResult LeaderboardStatsData)
    (l : Loop) : Loop :=
  match r with
  | Response true _ (Some data) =>
      {| page := setLeaderboardData data (page l); inflight := pred (inflight l);
         timers := timers l ++ [ {| callback := cb_getLeaderboardStats; delay := 15000 |} ];
         issued := issued l; errors := errors l |}
  | _ =>
      {| page := page l; inflight := pred (inflight l); timers := timers l;
         issued := issued l; errors := S (errors l) |}
  end.

Definition succeeded {A} (r : FetchResult A) : bool :=
  match r with Response true _ (Some _) => true | _ => false end.

(** The effect with no dependency: one call when the page mounts. *)
Definition mounted : Loop :=
  getLeaderboardStats
    {| page := initialState; inflight := 0; timers := []; issued := 0; errors := 0 |}.

Inductive Event : Type :=
| Settled (r : FetchResult LeaderboardStatsData)  (* a brief-stats fetch settles *)
| TimerFired                                      (* the oldest pending timer fires *)
| Other (f : State -> State).                     (* any other handler of the page *)

Inductive step : Loop -> Event -> Loop -> Prop :=
| step_settled r l :
    (0 < inflight l)%nat ->
    step l (Settled r) (getLeaderboardStats_settled r l)
| step_timer t ts l :
    timers l = t :: ts ->
    step l TimerFired
      (match callback t with
       | cb_getLeaderboardStats =>
           getLeaderboardStats
             {| page := page l; inflight := inflight l; timers := ts;
                issued := issued l; errors := errors l |}
       end)
| step_other f l :
    step l (Other f)
      {| page := f (page l); inflight := inflight l; timers := timers l;
         issued := issued l; errors := errors l |}.

Inductive steps : Loop -> list Event -> Loop -> Prop :=
| steps_nil l : steps l [] l
| steps_cons l e l1 es l2 : step l e l1 -> steps l1 es l2 -> steps l (e :: es) l2.

(** Runs of the loop: the states reached from [mounted], with the
    events that led there. *)
Definition run (es : list Event) (l : Loop) : Prop := steps mounted es l.

(** A fetch is awaited and no timer is pending. *)
Definition fetching (l : Loop) : Prop := inflight l = 1%nat /\ timers l = [].

(** No fetch is awaited and the timer of the next fetch is pending. *)
Definition waiting (l : Loop) : Prop :=
  inflight l = 0%nat /\
  timers l = [ {| callback := cb_getLeaderboardStats; delay := 15000 |} ].

(** No fetch is awaited and no timer is pending. *)
Definition stopped (l : Loop) : Prop := inflight l = 0%nat /\ timers l = [].

(** *** Query parameters, entry by entry

    The pairs one filter entry and one sorter entry stand for in a
    query, and the entry a sorter result stands for in the sorters
    object; the request is compared with these below. *)

Definition filterPairs (kv : string * FilterValue) : list (string * string) :=
  match kv.2 with
  | Some value => map (fun v => (kv.1, v)) value
  | None => []
  end.

Definition sorterPairs (fo : string * option SortOrder) : list (string * string) :=
  match fo.2 with
  | Some order => [("sortField", fo.1); ("sortOrder", SortOrder_str order)]
  | None => []
  end.

Definition activeSorter (s : SorterResult) : option (string * option SortOrder) :=
  match field s, order s with
  | Some f, Some o => if field_truthy f then Some (field_key f, Some o) else None
  | _, _ => None
  end.

(** The names the request uses for itself. *)
Definition reserved (k : string) : bool :=
  bool_decide (k ∈ ["page"; "per_page"; "sortField"; "sortOrder"]).

End Leaderboard.

(** ** The user detail page (User component) *)

Module User.

Inductive ViewMode : Type := Activity | Sponsorships.

(** The state hooks of the component and the route parameter. The
    interval is kept as the string the control hands over. *)
Record State : Type := {
  id : option string;                   (* [useParams().id] *)
  user : option Json.value;
  isLoading : bool;
  viewMode : ViewMode;
  historyInterval : string;
  sponsorshipHistory : Json.value
}.

(** The requests the page issues. *)
Inductive Request : Type :=
| UserRequest (id : string)
| HistoryRequest (id : string) (interval : string).

Definition url (apiUrl : string) (r : Request) : string :=
  match r with
  | UserRequest i => apiUrl +:+ "/user/" +:+ i
  | HistoryRequest i iv =>
      apiUrl +:+ "/user/" +:+ i +:+ "/sponsorship-history?interval=" +:+ iv
  end.

(** The value of the [interval] query parameter of a request. *)
Definition interval_param (r : Request) : option string :=
  match r with
  | HistoryRequest _ iv => Some iv
  | UserRequest _ => None
  end.

Definition is_history (r : Request) : bool :=
  match r with HistoryRequest _ _ => true | UserRequest _ => false end.

(** The options of the interval control. *)
Definition intervalOptions : list (string * string) :=
  [("Weekly", "W"); ("Monthly", "M")].

(** [!id] is false: the parameter is present and not empty. *)
Definition present (i : option string) : bool :=
  match i with
  | Some s => negb (String.eqb s "")
  | None => false
  end.

(** A mounted component: its state and, for each effect, the
    dependencies it last ran with. *)
Record Page : Type := {
  state : State;
  historyDeps : option (option string * string);   (* [id, historyInterval] *)
  userDeps : option (option string)                (* [id] *)
}.

Definition initialState (i : option string) : State :=
  {| id := i; user := None; isLoading := true; viewMode := Activity;
     historyInterval := "W"; sponsorshipHistory := Json.Arr [] |}.

(** fetchHistory up to the awaited request. *)
Definition fetchHistory (st : State) : list Request :=
  match id st with
  | Some i => if present (id st) then [HistoryRequest i (historyInterval st)] else []
  | None => []
  end.

(** getUserData up to the awaited request. *)
Definition getUserData (st : State) : list Request :=
  match id st with
  | Some i => [UserRequest i]
  | None => [UserRequest "undefined"]
  end.

(** The effects of one render. Without an id the component returns
    before it declares them. An effect runs on the first render and
    whenever one of its dependencies differs from the last run. *)
Definition commit (p : Page) : Page * list Request :=
  let st := state p in
  if present (id st) then
    let hd := Some (id st, historyInterval st) in
    let ud := Some (id st) in
    let r1 := if decide (historyDeps p = hd) then [] else fetchHistory st in
    let r2 := if decide (userDeps p = ud) then [] else getUserData st in
    ({| state := st; historyDeps := hd; userDeps := ud |}, r1 ++ r2)
  else (p, []).

Definition mount (i : option string) : Page * list Request :=
  commit {| state := initialState i; historyDeps := None; userDeps := None |}.

Inductive Event : Type :=
| IntervalChange (val : string)         (* the interval control changes *)
| ViewModeChange (v : ViewMode)         (* the view control changes *)
| RouteChange (i : option string)       (* the route hands over another id *)
| HistorySettled (r : FetchResult Json.value)
| UserSettled (r : FetchResult Json.value).

Definition setHistoryInterval (v : string) (st : State) : State :=
  {| id := id st; user := user st; isLoading := isLoading st; viewMode := viewMode st;
     historyInterval := v; sponsorshipHistory := sponsorshipHistory st |}.

Definition setViewMode (v : ViewMode) (st : State) : State :=
  {| id := id st; user := user st; isLoading := isLoading st; viewMode := v;
     historyInterval := historyInterval st;
     sponsorshipHistory := sponsorshipHistory st |}.

Definition setId (i : option string) (st : State) : State :=
  {| id := i; user := user st; isLoading := isLoading st; viewMode := viewMode st;
     historyInterval := historyInterval st;
     sponsorshipHistory := sponsorshipHistory st |}.

Definition setSponsorshipHistory (d : Json.value) (st : State) : State :=
  {| id := id st; user := user st; isLoading := isLoading st; viewMode := viewMode st;
     historyInterval := historyInterval st; sponsorshipHistory := d |}.

Definition setUser (d : Json.value) (st : State) : State :=
  {| id := id st; user := Some d; isLoading := isLoading st; viewMode := viewMode st;
     historyInterval := historyInterval st;
     sponsorshipHistory := sponsorshipHistory st |}.

Definition setIsLoading (b : bool) (st : State) : State :=
  {| id := id st; user := user st; isLoading := b; viewMode := viewMode st;
     historyInterval := historyInterval st;
     sponsorshipHistory := sponsorshipHistory st |}.

(** The state change of an event, before the next render. The history
    response is stored without looking at its status. *)
Definition handle (e : Event) (st : State) : State :=
  match e with
  | IntervalChange val => setHistoryInterval val st
  | ViewModeChange v => setViewMode v st
  | RouteChange i => setId i st
  | HistorySettled (Response _ _ (Some data)) => setSponsorshipHistory data st
  | HistorySettled _ => st
  | UserSettled (Response true _ (Some data)) => setIsLoading false (setUser data st)
  | UserSettled _ => setIsLoading false st
  end.

Definition step (e : Event) (p : Page) : Page * list Request :=
  commit {| state := handle e (state p); historyDeps := historyDeps p;
            userDeps := userDeps p |}.

(** The events a page can receive: the interval control is rendered in
    the sponsorship view, hands over the value of one of its options; the view control is disabled while loading;
    a render may not change whether the id is present, since the
    component declares its effects only when it is. *)
Definition possible (e : Event) (st : State) : Prop :=
  match e with
  | IntervalChange val =>
      viewMode st = Sponsorships /\ val ∈ map snd intervalOptions
  | ViewModeChange _ => isLoading st = false
  | RouteChange i => present i = present (id st)
  | HistorySettled _ | UserSettled _ => True
  end.

Inductive reachable : Page -> Prop :=
| reachable_mount i : reachable (mount i).1
| reachable_step p e :
    reachable p -> possible e (state p) -> reachable (step e p).1.

(** The selected interval is one of the two the API knows. *)
Definition interval_ok (st : State) : Prop :=
  historyInterval st = "W" \/ historyInterval st = "M".

(** Each effect of a rendered page last ran with the present values of
    its dependencies. *)
Definition deps_synced (p : Page) : Prop :=
  present (id (state p)) = true ->
  historyDeps p = Some (id (state p), historyInterval (state p)) /\
  userDeps p = Some (id (state p)).

End User.

(** ** Sample inputs *)

Module Samples.
Import Leaderboard.

(** A user object as the API sends it. *)
Definition octo_org : gmap string Json.value :=
  <["type" := Json.Str "Organization"]>
    (<["name" := Json.Null]>
       (<["username" := Json.Str "octo"]>
          (<["estimated_earnings" := Json.Num (21 # 2)]> ∅))).

(** The filters object of a table change: no type selected, two
    genders, an empty location selection. *)
Definition some_filters : JsObject.t (option (list string)) :=
  [("type", None); ("gender", Some ["Male"; "Other"]); ("location", Some [])].

Definition unset_pagination : TablePaginationConfig :=
  {| current := None; pageSize := None; total := None |}.

(** A table change that sorts by followers, then by earnings, and
    reports the repositories column as not sorted. *)
Definition reported_columns : list (ColumnType * option SortOrder) :=
  [ ({| title := "Followers"; dataIndex := "followers"; key := "followers";
        width := 100; column_filters := None; column_sorter := SorterMultiple 2 |},
     Some descend);
    ({| title := "Earnings (Estimate)"; dataIndex := "estimated_earnings";
        key := "earnings"; width := 165; column_filters := None;
        column_sorter := SorterMultiple 3 |},
     Some ascend);
    ({| title := "Repos"; dataIndex := "public_repos"; key := "repos"; width := 75;
        column_filters := None; column_sorter := SorterMultiple 1 |},
     None) ].

(** A user detail page after its user request failed and the view was
    switched to the sponsorships. *)
Definition page_42 : User.Page :=
  (User.step (User.ViewModeChange User.Sponsorships)
     (User.step (User.UserSettled NetworkError) (User.mount (Some "42")).1).1).1.

(** A refresh loop after one successful fetch and the timer it set. *)
Definition some_stats : LeaderboardStatsData :=
  {| total_users := 120; total_sponsorships := 45;
     top_sponsored := ("alice", "a.png", 30);
     top_sponsoring := ("bob", "b.png", 12) |}.

Definition loop_1 : Loop :=
  getLeaderboardStats_settled (Response true 200 (Some some_stats)) mounted.

Definition loop_2 : Loop :=
  getLeaderboardStats
    {| page := page loop_1; inflight := inflight loop_1; timers := [];
       issued := issued loop_1; errors := errors loop_1 |}.

End Samples.

(** ** More of the leaderboard page: cell renderers, page changes *)

Module LeaderboardView.
Import Leaderboard.

(** The text of the username cell: a name longer than 15 characters is
    cut to its first 13 and three dots. Characters stand for the code
    units [length] and [slice] count. *)
Definition renderUsername (username : string) : string :=
  if negb (String.eqb username "") && (15 <? String.length username)%nat
  then substring 0 13 username +:+ "..."
  else username.

(** The text of the name cell. *)
Definition renderName (text : string) : string :=
  if negb (String.eqb text "") && (13 <? String.length text)%nat
  then substring 0 11 text +:+ "..."
  else text.

(** The [onChange] of the pagination control. *)
Definition onPaginationChange (page size : Z) (st : State) : State :=
  setPagination
    (fun prev => {| current := Some page; pageSize := Some size; total := total prev |})
    st.

(** The dependencies of the effect that calls fetchUsers and
    getLocations. *)
Definition effectDeps (st : State)
    : option Z * option Z * JsObject.t FilterValue * JsObject.t (option SortOrder) :=
  (current (pagination st), pageSize (pagination st), filters st, sorters st).

(** [o[k]] read: the value of the property, if the object has it. *)
Definition lookup {V} (k : string) (o : JsObject.t V) : option V :=
  snd <$> List.find (fun p => String.eqb (fst p) k) o.

(** The order of the last sorter result that counts for a key. *)
Definition lastOrder (k : string) (l : list SorterResult) : option (option SortOrder) :=
  snd <$> List.find (fun p => String.eqb (fst p) k) (rev (omap activeSorter l)).

(** The number of timers fired among the events of a run. *)
Definition timersFired (es : list Event) : nat :=
  length (List.filter (fun e => match e with TimerFired => true | _ => false end) es).

(** No error was logged while the loop is alive; a stopped loop logged
    at most one. *)
Definition errors_ok (l : Loop) : Prop :=
  ((fetching l \/ waiting l) /\ errors l = 0%nat) \/
  (stopped l /\ (errors l <= 1)%nat).

End LeaderboardView.

(** ** More of the user detail page: chart data *)

Module UserView.

Record ActivityData : Type := {
  commits : Z;
  issues : Z;
  pull_requests : Z;
  reviews : Z
}.

Record YearlyActivityData : Type := {
  year : Z;
  activity_data : ActivityData
}.

(** The part of [UserModel] the chart reads; the array may be missing. *)
Record UserModel : Type := {
  yearly_activity_data : option (list YearlyActivityData)
}.

Record Dataset (D : Type) : Type := {
  label : string;
  data : list D;
  borderColor : string;
  backgroundColor : string;
  fill : bool;
  tension : Q;
  pointRadius : Z
}.

Arguments label {D}.
Arguments data {D}.
Arguments borderColor {D}.
Arguments backgroundColor {D}.
Arguments fill {D}.
Arguments tension {D}.
Arguments pointRadius {D}.

Record ChartData (L D : Type) : Type := {
  labels : list L;
  datasets : list (Dataset D)
}.

Arguments labels {L D}.
Arguments datasets {L D}.

Definition emptyChart {L D} : ChartData L D := {| labels := []; datasets := [] |}.

(** The accumulators of the [forEach] of activityChartData. *)
Record Series : Type := {
  s_labels : list string;
  s_commits : list Z;
  s_issues : list Z;
  s_prs : list Z;
  s_reviews : list Z
}.

Definition pushYear (acc : Series) (d : YearlyActivityData) : Series :=
  {| s_labels := s_labels acc ++ [pretty (year d)];
     s_commits := s_commits acc ++ [commits (activity_data d)];
     s_issues := s_issues acc ++ [issues (activity_data d)];
     s_prs := s_prs acc ++ [pull_requests (activity_data d)];
     s_reviews := s_reviews acc ++ [reviews (activity_data d)] |}.

Definition activityChartData (user : option UserModel) : ChartData string Z :=
  match user with
  | None => emptyChart
  | Some u =>
      match yearly_activity_data u with
      | None => emptyChart
      | Some ys =>
          let acc := foldl pushYear
                       {| s_labels := []; s_commits := []; s_issues := [];
                          s_prs := []; s_reviews := [] |}
                       (rev ys) in
          {| labels := s_labels acc;
             datasets :=
               [ {| label := "Commits"; data := s_commits acc;
                    borderColor := "#A855F7";
                    backgroundColor := "rgba(168, 85, 247, 0.2)";
                    fill := true; tension := 2 # 5; pointRadius := 3 |};
                 {| label := "Issues"; data := s_issues acc;
                    borderColor := "#EC4899";
                    backgroundColor := "rgba(236, 72, 153, 0.2)";
                    fill := true; tension := 2 # 5; pointRadius := 3 |};
                 {| label := "Pull Requests"; data := s_prs acc;
                    borderColor := "#22D3EE";
                    backgroundColor := "rgba(34, 211, 238, 0.2)";
                    fill := true; tension := 2 # 5; pointRadius := 3 |};
                 {| label := "Code Reviews"; data := s_reviews acc;
                    borderColor := "#60A5FA";
                    backgroundColor := "rgba(96, 165, 250, 0.2)";
                    fill := true; tension := 2 # 5; pointRadius := 3 |} ] |}
      end
  end.

(** *** sponsorshipChartData, on whatever JSON the history request
    stored. A JavaScript value read from a point is a JSON value or
    undefined ([None]). *)

Abbreviation JsValue := (option Json.value).

(** [!v] is false. *)
Definition truthy (v : Json.value) : bool :=
  match v with
  | Json.Null => false
  | Json.Bool b => b
  | Json.Num q => negb (Qeq_bool q 0)
  | Json.Str s => negb (String.eqb s "")
  | Json.Arr _ | Json.Obj _ => true
  end.

(** An own property of a parsed object: of two entries with one name
    the later one counts. *)
Definition own (k : string) (fields : list (string * Json.value)) : JsValue :=
  snd <$> List.find (fun p => String.eqb (fst p) k) (rev fields).

(** [v.length === 0] for a truthy [v]. *)
Definition length_is_zero (v : Json.value) : bool :=
  match v with
  | Json.Arr l => match l with [] => true | _ => false end
  | Json.Str s => String.eqb s ""
  | Json.Obj fields =>
      match own "length" fields with
      | Some (Json.Num q) => Qeq_bool q 0
      | _ => false
      end
  | _ => false
  end.

(** [d.k] for a name [k] that no prototype defines (date, active_count):
    reading a property of null throws ([None]); only an object can have
    the property. *)
Definition member (k : string) (d : Json.value) : option JsValue :=
  match d with
  | Json.Null => None
  | Json.Obj fields => Some (own k fields)
  | _ => Some None
  end.

(** [None]: the computation throws a TypeError. *)
Definition sponsorshipChartData (sponsorshipHistory : Json.value)
    : option (ChartData JsValue JsValue) :=
  if negb (truthy sponsorshipHistory) || length_is_zero sponsorshipHistory
  then Some emptyChart
  else
    match sponsorshipHistory with
    | Json.Arr l =>
        match mapM (member "date") l, mapM (member "active_count") l with
        | Some dates, Some counts =>
            Some {| labels := dates;
                    datasets :=
                      [ {| label := "Active Sponsors"; data := counts;
                           borderColor := "#10B981";
                           backgroundColor := "rgba(16, 185, 129, 0.2)";
                           fill := true; tension := 2 # 5; pointRadius := 4 |} ] |}
        | _, _ => None
        end
    | _ => None      (* [.map] is not a function *)
    end.

End UserView.

(** ** Analytics (initGtag, usePageViews) *)

Module Analytics.

Inductive Arg : Type :=
| ArgStr (s : string)
| ArgDate (t : Z)
| ArgObj (fields : list (string * string)).

(** [window.gtag]: the function initGtag defines, or something else
    another script defined. *)
Inductive Gtag : Type := OwnGtag | ForeignGtag.

Record Script : Type := { async : bool; src : string }.

Record Window : Type := {
  gtag : option Gtag;
  dataLayer : option (list (list Arg));
  head : list Script;
  href : string                        (* [window.location.href] *)
}.

(** A string of the environment is set and not empty. *)
Definition set_id (GA_ID : option string) : bool :=
  match GA_ID with
  | Some s => negb (String.eqb s "")
  | None => false
  end.

(** A call of the function initGtag defines: it pushes its arguments on
    [window.dataLayer]; without a dataLayer the push throws ([None]). *)
Definition ownGtag (args : list Arg) (w : Window) : option Window :=
  match dataLayer w with
  | Some dl =>
      Some {| gtag := gtag w; dataLayer := Some (dl ++ [args]);
              head := head w; href := href w |}
  | None => None
  end.

Section Environment.

(** [import.meta.env.PROD] and [import.meta.env.VITE_GA_MEASUREMENT_ID]. *)
Variable isProd : bool.
Variable GA_ID : option string.

(** [now] is the value of [new Date()]. *)
Definition initGtag (now : Z) (w : Window) : Window :=
  if negb isProd || negb (set_id GA_ID) then w
  else
    match gtag w with
    | Some _ => w
    | None =>
        let id := default "" GA_ID in
        let s := {| async := true;
                    src := "https://www.googletagmanager.com/gtag/js?id=" +:+ id |} in
        let dl := default [] (dataLayer w) in
        {| gtag := Some OwnGtag;
           dataLayer := Some (dl ++ [[ArgStr "js"; ArgDate now]]
                                 ++ [[ArgStr "config"; ArgStr id]]);
           head := head w ++ [s];
           href := href w |}
    end.

(** The effect of usePageViews for a location. It returns the window
    and [sentRef.current]; [None] when the call leaves what is modelled:
    a foreign gtag runs, or the push throws. *)
Definition pageView (pathname search : string) (sent : bool) (w : Window)
    : option (Window * bool) :=
  if negb isProd || negb (set_id GA_ID) then Some (w, sent)
  else
    match gtag w with
    | None => Some (w, true)
    | Some OwnGtag =>
        match ownGtag [ArgStr "event"; ArgStr "page_view";
                       ArgObj [("page_location", href w);
                               ("page_path", pathname +:+ search);
                               ("send_to", default "" GA_ID)]] w with
        | Some w' => Some (w', true)
        | None => None
        end
    | Some ForeignGtag => None
    end.

(** A route change the hook sees: the [href] of the window when the
    effect runs, and the [pathname] and [search] of the router's
    location. *)
Record Visit : Type := {
  visit_href : string;
  pathname : string;
  search : string
}.

(** The browser arrives at another address. *)
Definition navigate (h : string) (w : Window) : Window :=
  {| gtag := gtag w; dataLayer := dataLayer w; head := head w; href := h |}.

(** The effect run for one route change after the other; each run reads
    the address the window has then. *)
Fixpoint pageViews (visits : list Visit) (sent : bool) (w : Window)
    : option (Window * bool) :=
  match visits with
  | [] => Some (w, sent)
  | v :: rest =>
      match pageView (pathname v) (search v) sent (navigate (visit_href v) w) with
      | Some (w', sent') => pageViews rest sent' w'
      | None => None
      end
  end.

(** The [page_view] entry of a route change. *)
Definition pageViewEvent (v : Visit) : list Arg :=
  [ArgStr "event"; ArgStr "page_view";
   ArgObj [("page_location", visit_href v);
           ("page_path", pathname v +:+ search v);
           ("send_to", default "" GA_ID)]].

(** The address of the window after some route changes. *)
Definition lastHref (visits : list Visit) (w : Window) : string :=
  default (href w) (visit_href <$> last visits).

End Environment.

End Analytics.

(** ** More sample inputs *)

Module MoreSamples.

Definition long_username : string := "a-very-long-username".

Definition short_username : string := "octocat".

(** A user whose activity arrives newest year first. *)
Definition two_years : UserView.UserModel :=
  {| UserView.yearly_activity_data :=
       Some [ {| UserView.year := 2024;
                 UserView.activity_data :=
                   {| UserView.commits := 310; UserView.issues := 12;
                      UserView.pull_requests := 40; UserView.reviews := 25 |} |};
              {| UserView.year := 2023;
                 UserView.activity_data :=
                   {| UserView.commits := 120; UserView.issues := 4;
                      UserView.pull_requests := 9; UserView.reviews := 3 |} |} ] |}.

(** Two points of a sponsorship history, and the body of an error
    response. *)
Definition two_points : list Json.value :=
  [ Json.Obj [("date", Json.Str "2025-01-06"); ("active_count", Json.Num 3)];
    Json.Obj [("date", Json.Str "2025-01-13"); ("active_count", Json.Num 5)] ].

Definition error_body : list (string * Json.value) :=
  [("error", Json.Str "User not found")].

(** A window no script has touched yet. *)
(** A visit of a user page and then of the leaderboard. *)
Definition two_visits : list Analytics.Visit :=
  [ {| Analytics.visit_href := "https://example.org/user/42?tab=a";
       Analytics.pathname := "/user/42"; Analytics.search := "?tab=a" |};
    {| Analytics.visit_href := "https://example.org/";
       Analytics.pathname := "/"; Analytics.search := "" |} ].

Definition fresh_window : Analytics.Window :=
  {| Analytics.gtag := None; Analytics.dataLayer := None; Analytics.head := [];
     Analytics.href := "https://example.org/user/42?tab=a" |}.

End MoreSamples.

(** * Properties *)

(** ** The definitions at work *)

Section Examples.
Import Leaderboard.

Example queryParams_sample :
  queryParams initialPagination Samples.some_filters [("followers", Some descend)]
  = [("page", "1"); ("per_page", "10"); ("gender", "Male"); ("gender", "Other");
     ("sortField", "followers"); ("sortOrder", "descend")].
Proof. reflexivity. Qed.

(** An unset or zero page number falls back to 1. *)
Example queryParams_zero_page :
  URLSearchParams.get "page"
    (queryParams {| current := Some 0; pageSize := Some 20; total := None |} [] [])
  = Some "1".
Proof. reflexivity. Qed.

(** Array-index names are enumerated first, in numeric order. *)
Example JsObject_set_index_names :
  JsObject.set "10" 1 (JsObject.set "b" 2 (JsObject.set "2" 3 [("a", 4)]))
  = [("2", 3); ("10", 1); ("a", 4); ("b", 2)].
Proof. reflexivity. Qed.

(** Two sorter results for one field leave one entry, with the later
    order. *)
Example formattedSorters_same_field :
  formattedSorters
    (Multiple [ {| field := Some (FieldKey (KStr "followers")); order := Some descend |};
                {| field := Some (FieldPath [KStr "owner"; KStr "name"]);
                   order := Some ascend |};
                {| field := Some (FieldKey (KStr "followers")); order := Some ascend |} ])
  = [("followers", Some ascend); ("owner.name", Some ascend)].
Proof. reflexivity. Qed.

(** With no sorter left the table hands over one result without an
    order. *)
Example formattedSorters_cleared :
  formattedSorters (Single {| field := Some (FieldKey (KStr "name")); order := None |})
  = [].
Proof. reflexivity. Qed.

Example Math_round_samples :
  Math_round (21 # 2) = 11 /\ Math_round (1049 # 100) = 10 /\
  Math_round (-(1 # 2)) = 0 /\ Math_round (-(3 # 2)) = -1 /\ Math_round 7 = 7.
Proof. repeat split. Qed.

End Examples.

(** ** Rows of the leaderboard *)

Section Rows.
Import Leaderboard.

Implicit Types (user : gmap string Json.value) (k : string) (v : Json.value).

(** Defining the entries of a list one after the other gives, for a
    list without a repeated name, the map of the list. *)
Lemma foldl_insert_lookup (l : list (string * Json.value)) :
  NoDup l.*1 ->
  forall (m : gmap string Json.value) k,
    foldl (fun m kv => <[kv.1 := kv.2]> m) m l !! k
    = match (list_to_map l : gmap string Json.value) !! k with
      | Some v => Some v
      | None => m !! k
      end.
Proof.
  induction l as [|[k0 v0] l IH]; intros Hnd m k; simpl.
  - by rewrite lookup_empty.
  - apply NoDup_cons in Hnd as [Hk0 Hnd].
    rewrite (IH Hnd). destruct (decide (k0 = k)) as [->|Hne].
    + rewrite (not_elem_of_list_to_map_1 l k Hk0).
      by rewrite !lookup_insert_eq.
    + by rewrite !lookup_insert_ne.
Qed.

Lemma Object_fromEntries_lookup (l : list (string * Json.value)) k :
  NoDup l.*1 ->
  Object_fromEntries l !! k = (list_to_map l : gmap string Json.value) !! k.
Proof.
  intros Hnd. unfold Object_fromEntries.
  rewrite (foldl_insert_lookup l Hnd), lookup_empty.
  by destruct (_ !! k).
Qed.

Lemma mapUser_lookup user k : mapUser user !! k = mapValue <$> user !! k.
Proof.
  unfold mapUser, Object_entries.
  change (map (fun kv => (kv.1, mapValue kv.2)) (map_to_list user))
    with (prod_map id mapValue <$> map_to_list user).
  rewrite Object_fromEntries_lookup.
  - by rewrite list_to_map_fmap, list_to_map_to_list, lookup_fmap.
  - rewrite <- list_fmap_compose.
    exact (NoDup_fst_map_to_list user).
Qed.

Lemma mapValue_not_null v : mapValue v <> Json.Null.
Proof.
  destruct v as [| | |s| |]; simpl; try discriminate.
  by destruct (String.eqb s "Organization").
Qed.

Lemma mapValue_other v :
  v <> Json.Null -> v <> Json.Str "Organization" -> mapValue v = v.
Proof.
  destruct v as [| | |s| |]; simpl; intros Hn Ho; try done.
  destruct (String.eqb_spec s "Organization") as [->|]; done.
Qed.

End Rows.

Section RowProperties.
Import Leaderboard.

(** C8. In a row built by the mapping of fetchUsers, a field that was
    null holds the string "None", a field that was the string
    "Organization" holds "Org", and any other field holds the value it
    had; the row has the fields of the user object and none of them is
    null. *)
Theorem mapUser_fields (user : gmap string Json.value) (k : string) (v : Json.value) :
  user !! k = Some v ->
  (v = Json.Null -> mapUser user !! k = Some (Json.Str "None")) /\
  (v = Json.Str "Organization" -> mapUser user !! k = Some (Json.Str "Org")) /\
  (v <> Json.Null -> v <> Json.Str "Organization" -> mapUser user !! k = Some v) /\
  dom (mapUser user) = dom user /\
  (forall k', mapUser user !! k' <> Some Json.Null).
Proof.
  intros Hk. repeat split.
  - intros ->. by rewrite mapUser_lookup, Hk.
  - intros ->. by rewrite mapUser_lookup, Hk.
  - intros Hn Ho. by rewrite mapUser_lookup, Hk; simpl; rewrite mapValue_other.
  - apply set_eq. intros k'. rewrite !elem_of_dom, mapUser_lookup.
    by rewrite fmap_is_Some.
  - intros k'. rewrite mapUser_lookup.
    destruct (user !! k') as [v'|]; simpl; [|done].
    intros [= Hv]. by apply mapValue_not_null in Hv.
Qed.

Lemma mapUser_fields_witness :
  Samples.octo_org !! "type" = Some (Json.Str "Organization") /\
  mapUser Samples.octo_org !! "type" = Some (Json.Str "Org") /\
  mapUser Samples.octo_org !! "name" <> Some Json.Null.
Proof.
  split; [reflexivity|].
  pose proof (mapUser_fields Samples.octo_org "type" (Json.Str "Organization") eq_refl)
    as (_ & Horg & _ & _ & Hnull).
  split; [exact (Horg eq_refl) | exact (Hnull "name")].
Defined.

(** C1. After a successful list-users response [{ users, total }],
    fetchUsers has stored one row per element of [users], in the order
    of the response, each the mapping of its element; the pagination
    total is the total of the response, and the current page and the
    page size are the ones it had. *)
Theorem fetchUsers_stores_rows_and_total
    (st : State) (status : Z) (data : ListUsersBody) :
  let st' := fetchUsers_settled (Response true status (Some data)) st in
  length (users st') = length (body_users data) /\
  (forall i, users st' !! i = mapUser <$> body_users data !! i) /\
  total (pagination st') = Some (body_total data) /\
  current (pagination st') = current (pagination st) /\
  pageSize (pagination st') = pageSize (pagination st).
Proof.
  simpl. repeat split.
  - apply length_map.
  - intros i. apply list_lookup_fmap.
Qed.

(** C7. After a successful distinct-locations response, the filter
    options of the location column are one option per string of the
    response, in the order of the response, with that string as both
    its text and its value. *)
Theorem getLocations_builds_options
    (st : State) (status : Z) (data : list string) :
  let st' := getLocations_settled (Response true status (Some data)) st in
  length (locationFilters st') = length data /\
  (forall i, locationFilters st' !! i
             = (fun s => {| text := s; value := s |}) <$> data !! i) /\
  map text (locationFilters st') = data /\
  map value (locationFilters st') = data /\
  column_filters <$> column "location" (locationFilters st')
  = Some (Some (locationFilters st')).
Proof.
  simpl. repeat split.
  - apply length_map.
  - intros i. apply (list_lookup_fmap (fun s => {| text := s; value := s |})).
  - rewrite map_map. simpl. apply map_id.
  - rewrite map_map. simpl. apply map_id.
Qed.

(** C3. Whatever the location options are, the filter menu of the
    gender column offers the four values Male, Female, Other and
    Unknown, in that order, each under its own name, and nothing else;
    one column only has the key gender. *)
Theorem gender_filter_values (locationFilters : list Location) :
  filterValues "gender" locationFilters = ["Male"; "Female"; "Other"; "Unknown"] /\
  (column_filters <$> column "gender" locationFilters
   = Some (Some [ {| text := "Male"; value := "Male" |};
                  {| text := "Female"; value := "Female" |};
                  {| text := "Other"; value := "Other" |};
                  {| text := "Unknown"; value := "Unknown" |} ])) /\
  (forall v, v ∈ filterValues "gender" locationFilters <->
             v = "Male" \/ v = "Female" \/ v = "Other" \/ v = "Unknown") /\
  length (List.filter (fun c => String.eqb (key c) "gender")
            (columns locationFilters)) = 1%nat.
Proof.
  repeat split; try reflexivity.
  - change (filterValues "gender" locationFilters)
      with ["Male"; "Female"; "Other"; "Unknown"].
    rewrite !elem_of_cons, elem_of_nil. tauto.
  - change (filterValues "gender" locationFilters)
      with ["Male"; "Female"; "Other"; "Unknown"].
    rewrite !elem_of_cons, elem_of_nil. tauto.
Qed.

End RowProperties.

(** ** The list-users request *)

Section Query.
Import Leaderboard.

Implicit Types (q : URLSearchParams.t) (k : string).

Lemma foldl_append_values k (vs : list string) q :
  foldl (fun q v => URLSearchParams.append k v q) q vs
  = q ++ map (fun v => (k, v)) vs.
Proof.
  revert q. induction vs as [|v vs IH]; intros q; simpl.
  - by rewrite app_nil_r.
  - rewrite IH. unfold URLSearchParams.append. by rewrite <- app_assoc.
Qed.

Lemma appendFilter_pairs q (kv : string * option (list string)) :
  appendFilter q kv = q ++ filterPairs kv.
Proof.
  unfold appendFilter, filterPairs. destruct kv as [k [[|v vs]|]]; simpl.
  - by rewrite app_nil_r.
  - rewrite foldl_append_values. unfold URLSearchParams.append.
    by rewrite <- app_assoc.
  - by rewrite app_nil_r.
Qed.

Lemma appendSorter_pairs q (fo : string * option SortOrder) :
  appendSorter q fo = q ++ sorterPairs fo.
Proof.
  unfold appendSorter, sorterPairs, URLSearchParams.append.
  destruct fo as [f [o|]]; simpl.
  - by rewrite <- app_assoc.
  - by rewrite app_nil_r.
Qed.

Lemma foldl_pairs {A} (step : URLSearchParams.t -> A -> URLSearchParams.t)
    (pairs : A -> list (string * string)) :
  (forall q a, step q a = q ++ pairs a) ->
  forall l q, foldl step q l = q ++ flat_map pairs l.
Proof.
  intros Hstep. induction l as [|a l IH]; intros q; simpl.
  - by rewrite app_nil_r.
  - by rewrite IH, Hstep, <- app_assoc.
Qed.

(** The query fetchUsers builds: the page, the page size, then the
    pairs of the filters and the pairs of the sorters, entry by entry. *)
Lemma queryParams_pairs (p : TablePaginationConfig)
    (f : JsObject.t (option (list string))) (s : JsObject.t (option SortOrder)) :
  queryParams p f s
  = [("page", toString (or_default (current p) 1));
     ("per_page", toString (or_default (pageSize p) 10))]
    ++ flat_map filterPairs f ++ flat_map sorterPairs s.
Proof.
  unfold queryParams, JsObject.entries, URLSearchParams.of_record.
  rewrite (foldl_pairs appendSorter sorterPairs appendSorter_pairs).
  rewrite (foldl_pairs appendFilter filterPairs appendFilter_pairs).
  by rewrite <- app_assoc.
Qed.

Lemma getAll_app k q1 q2 :
  URLSearchParams.getAll k (q1 ++ q2)
  = URLSearchParams.getAll k q1 ++ URLSearchParams.getAll k q2.
Proof. unfold URLSearchParams.getAll. by rewrite List.filter_app, map_app. Qed.

Lemma getAll_same k (vs : list string) :
  URLSearchParams.getAll k (map (fun v => (k, v)) vs) = vs.
Proof.
  unfold URLSearchParams.getAll. induction vs as [|v vs IH]; [done|].
  simpl. rewrite String.eqb_refl. simpl. by rewrite IH.
Qed.

Lemma getAll_other k k' (vs : list string) :
  k' <> k -> URLSearchParams.getAll k (map (fun v => (k', v)) vs) = [].
Proof.
  intros Hne. unfold URLSearchParams.getAll.
  induction vs as [|v vs IH]; [done|].
  simpl. apply String.eqb_neq in Hne. by rewrite Hne.
Qed.

Lemma getAll_filterPairs_other k (f : JsObject.t (option (list string))) :
  k ∉ JsObject.keys f -> URLSearchParams.getAll k (flat_map filterPairs f) = [].
Proof.
  unfold JsObject.keys. induction f as [|[k' v] f IH]; [done|].
  simpl. rewrite not_elem_of_cons. intros [Hne Hk].
  rewrite getAll_app, (IH Hk), app_nil_r.
  unfold filterPairs. simpl. destruct v as [vs|]; [|done].
  by apply getAll_other.
Qed.

(** The values a key of the filters object has among the pairs of the
    filters: those of its array. *)
Lemma getAll_filterPairs k (v : option (list string))
    (f : JsObject.t (option (list string))) :
  NoDup (JsObject.keys f) -> (k, v) ∈ f ->
  URLSearchParams.getAll k (flat_map filterPairs f) = default [] v.
Proof.
  unfold JsObject.keys. induction f as [|[k' v'] f IH]; intros Hnd Hin.
  - by apply elem_of_nil in Hin.
  - simpl in Hnd. apply NoDup_cons in Hnd as [Hk' Hnd].
    simpl. rewrite getAll_app.
    apply elem_of_cons in Hin as [[= <- <-]|Hin].
    + rewrite (getAll_filterPairs_other k f Hk'), app_nil_r.
      unfold filterPairs. simpl. destruct v as [vs|]; [|done].
      apply getAll_same.
    + rewrite (IH Hnd Hin).
      assert (k' <> k) as Hne.
      { intros ->. apply Hk'. apply list_elem_of_fmap. by exists (k, v). }
      unfold filterPairs. simpl. destruct v' as [vs|]; [|done].
      by rewrite getAll_other.
Qed.

Lemma getAll_sorterPairs k (s : JsObject.t (option SortOrder)) :
  k <> "sortField" -> k <> "sortOrder" ->
  URLSearchParams.getAll k (flat_map sorterPairs s) = [].
Proof.
  intros H1 H2. apply not_eq_sym, String.eqb_neq in H1, H2.
  induction s as [|[f [o|]] s IH]; [done|..].
  - change (flat_map sorterPairs ((f, Some o) :: s))
      with ([("sortField", f); ("sortOrder", SortOrder_str o)]
            ++ flat_map sorterPairs s).
    rewrite getAll_app, IH, app_nil_r.
    unfold URLSearchParams.getAll. cbn [List.filter fst]. by rewrite H1, H2.
  - exact IH.
Qed.

End Query.

Section FilterParameters.
Import Leaderboard.

Lemma get_page (p : TablePaginationConfig)
    (f : JsObject.t (option (list string))) (s : JsObject.t (option SortOrder)) :
  URLSearchParams.get "page" (queryParams p f s)
  = Some (toString (or_default (current p) 1)).
Proof. by rewrite queryParams_pairs. Qed.

Lemma get_per_page (p : TablePaginationConfig)
    (f : JsObject.t (option (list string))) (s : JsObject.t (option SortOrder)) :
  URLSearchParams.get "per_page" (queryParams p f s)
  = Some (toString (or_default (pageSize p) 10)).
Proof. by rewrite queryParams_pairs. Qed.

Lemma getAll_query (p : TablePaginationConfig)
    (f : JsObject.t (option (list string))) (s : JsObject.t (option SortOrder))
    (k : string) (v : option (list string)) :
  NoDup (JsObject.keys f) -> (k, v) ∈ f -> reserved k = false ->
  URLSearchParams.getAll k (queryParams p f s) = default [] v.
Proof.
  intros Hnd Hin Hres. unfold reserved in Hres.
  apply bool_decide_eq_false in Hres.
  rewrite !not_elem_of_cons in Hres. destruct Hres as (H1 & H2 & H3 & H4 & _).
  rewrite queryParams_pairs, !getAll_app.
  rewrite (getAll_filterPairs k v f Hnd Hin), (getAll_sorterPairs k s H3 H4).
  rewrite app_nil_r.
  apply not_eq_sym, String.eqb_neq in H1, H2.
  unfold URLSearchParams.getAll. cbn [List.filter fst]. by rewrite H1, H2.
Qed.

(** C6. The list-users request always has a page and a per_page
    parameter, 1 and 10 when the pagination does not set them. After
    these come the parameters of the filters: a filter key whose value
    is a non-empty array has one parameter per element of the array, in
    the order of the array, and a key whose value is null or an empty
    array has none. Unless the key is one of the names the request uses
    for itself, these are all the parameters of that name in the
    request. *)
Theorem fetchUsers_query_filters (p : TablePaginationConfig)
    (f : JsObject.t (option (list string))) (s : JsObject.t (option SortOrder)) :
  NoDup (JsObject.keys f) ->
  let q := queryParams p f s in
  URLSearchParams.get "page" q = Some (toString (or_default (current p) 1)) /\
  URLSearchParams.get "per_page" q = Some (toString (or_default (pageSize p) 10)) /\
  (current p = None -> URLSearchParams.get "page" q = Some "1") /\
  (pageSize p = None -> URLSearchParams.get "per_page" q = Some "10") /\
  (exists F,
      q = [("page", toString (or_default (current p) 1));
           ("per_page", toString (or_default (pageSize p) 10))]
          ++ F ++ flat_map sorterPairs s /\
      (forall k vs, (k, Some vs) ∈ f -> vs <> [] ->
                    URLSearchParams.getAll k F = vs) /\
      (forall k, (k, None) ∈ f \/ (k, Some []) ∈ f ->
                 URLSearchParams.getAll k F = [])) /\
  (forall k vs, (k, Some vs) ∈ f -> vs <> [] -> reserved k = false ->
                URLSearchParams.getAll k q = vs) /\
  (forall k, (k, None) ∈ f \/ (k, Some []) ∈ f -> reserved k = false ->
             URLSearchParams.getAll k q = []).
Proof.
  intros Hnd q. subst q.
  split; [apply get_page|]. split; [apply get_per_page|].
  split; [intros Hc; by rewrite get_page, Hc|].
  split; [intros Hs; by rewrite get_per_page, Hs|].
  split; [|split].
  - exists (flat_map filterPairs f). split; [apply queryParams_pairs|]. split.
    + intros k vs Hin _. by rewrite (getAll_filterPairs k (Some vs) f).
    + intros k [Hin|Hin].
      * by rewrite (getAll_filterPairs k None f).
      * by rewrite (getAll_filterPairs k (Some []) f).
  - intros k vs Hin _ Hres. by rewrite (getAll_query p f s k (Some vs)).
  - intros k [Hin|Hin] Hres.
    + by rewrite (getAll_query p f s k None).
    + by rewrite (getAll_query p f s k (Some [])).
Qed.

Lemma fetchUsers_query_filters_witness :
  NoDup (JsObject.keys Samples.some_filters) /\
  URLSearchParams.get "page"
    (queryParams Samples.unset_pagination Samples.some_filters
       [("followers", Some descend)]) = Some "1" /\
  URLSearchParams.getAll "gender"
    (queryParams Samples.unset_pagination Samples.some_filters
       [("followers", Some descend)]) = ["Male"; "Other"] /\
  URLSearchParams.getAll "type"
    (queryParams Samples.unset_pagination Samples.some_filters
       [("followers", Some descend)]) = [].
Proof.
  assert (NoDup (JsObject.keys Samples.some_filters)) as Hnd.
  { apply (bool_decide_unpack _). vm_compute. exact I. }
  split; [exact Hnd|].
  pose proof (fetchUsers_query_filters Samples.unset_pagination
                Samples.some_filters [("followers", Some descend)] Hnd)
    as (_ & _ & Hpage & _ & _ & Harr & Hnull).
  split; [exact (Hpage eq_refl)|]. split.
  - apply Harr; [repeat constructor | discriminate | reflexivity].
  - apply Hnull; [left; repeat constructor | reflexivity].
Defined.

End FilterParameters.

(** ** Sorters of a table change *)

Section Sorters.
Import Leaderboard.

Implicit Types (acc : JsObject.t (option SortOrder)) (k : string).

Lemma has_fresh {V} k (o : JsObject.t V) :
  k ∉ JsObject.keys o -> JsObject.has k o = false.
Proof.
  unfold JsObject.keys, JsObject.has. induction o as [|[k' v'] o IH]; [done|].
  simpl. rewrite not_elem_of_cons. intros [Hne Hk].
  rewrite (IH Hk), orb_false_r. apply String.eqb_neq. congruence.
Qed.

(** Assigning a property the object does not have, under a name that
    is not an array index, adds it after the others. *)
Lemma set_fresh {V} k (v : V) (o : JsObject.t V) :
  k ∉ JsObject.keys o -> JsObject.array_index k = None ->
  JsObject.set k v o = o ++ [(k, v)].
Proof.
  intros Hk Hidx. unfold JsObject.set. by rewrite (has_fresh k o Hk), Hidx.
Qed.

Lemma formatSorter_active acc (s : SorterResult) :
  formatSorter acc s
  = match activeSorter s with
    | Some ko => JsObject.set ko.1 ko.2 acc
    | None => acc
    end.
Proof.
  unfold formatSorter, activeSorter.
  destruct (field s) as [f|], (order s) as [o|]; try done.
  by destruct (field_truthy f).
Qed.

(** The reduction of handleTableChange over sorter results whose keys
    differ from each other and are not array indices keeps one entry
    per sorter result with a field and an order, in their order. *)
Lemma foldl_formatSorter (l : list SorterResult) :
  forall acc,
    NoDup (JsObject.keys acc ++ (omap activeSorter l).*1) ->
    Forall (fun ko => JsObject.array_index ko.1 = None) (omap activeSorter l) ->
    foldl formatSorter acc l = acc ++ omap activeSorter l.
Proof.
  induction l as [|s l IH]; intros acc Hnd Hidx; simpl.
  - by rewrite app_nil_r.
  - rewrite formatSorter_active. simpl in Hnd, Hidx.
    destruct (activeSorter s) as [[k o]|]; simpl in *.
    + apply Forall_cons in Hidx as [Hk Hidx].
      assert (k ∉ JsObject.keys acc) as Hfresh.
      { apply NoDup_app in Hnd as (_ & Hdisj & _).
        intros Hin. apply (Hdisj k Hin). by left. }
      rewrite (set_fresh k o acc Hfresh Hk).
      rewrite IH; [by rewrite <- app_assoc| |done].
      unfold JsObject.keys in *. rewrite fmap_app. simpl.
      rewrite <- app_assoc. exact Hnd.
    + by apply IH.
Qed.

(** *** The columns of this table *)

Lemma columns_dataIndex (lf : list Location) (c : ColumnType) :
  c ∈ columns lf ->
  String.eqb (dataIndex c) "" = false /\ JsObject.array_index (dataIndex c) = None.
Proof.
  unfold columns. rewrite !elem_of_cons, elem_of_nil.
  intros H. repeat (destruct H as [->|H]; [by split|]). done.
Qed.

Lemma columns_key_dataIndex (lf : list Location) (c1 c2 : ColumnType) :
  c1 ∈ columns lf -> c2 ∈ columns lf ->
  dataIndex c1 = dataIndex c2 -> key c1 = key c2.
Proof.
  unfold columns. rewrite !elem_of_cons, !elem_of_nil.
  intros H1 H2.
  repeat (destruct H1 as [->|H1]; [|]); try done;
    repeat (destruct H2 as [->|H2]; [|]); try done; simpl; congruence.
Qed.

(** The sorters-object entry of a reported column. *)
Lemma activeSorter_reported (lf : list Location)
    (reported : list (ColumnType * option SortOrder)) :
  Forall (fun co => co.1 ∈ columns lf) reported ->
  omap activeSorter (map sorterResultOf reported)
  = omap (fun co => (fun o => (dataIndex co.1, Some o)) <$> co.2) reported.
Proof.
  induction 1 as [|[c o] l Hc _ IH]; [done|].
  destruct o as [o|]; simpl; unfold activeSorter at 1; simpl; [|exact IH].
  rewrite (proj1 (columns_dataIndex lf c Hc)). simpl. f_equal. exact IH.
Qed.

Lemma reported_keys_NoDup (lf : list Location)
    (reported : list (ColumnType * option SortOrder)) :
  Forall (fun co => co.1 ∈ columns lf) reported ->
  NoDup (map (fun co => key co.1) reported) ->
  NoDup (omap (fun co : ColumnType * option SortOrder =>
                 (fun o => (dataIndex co.1, Some o)) <$> co.2) reported).*1.
Proof.
  induction 1 as [|[c o] l Hc Hl IH]; intros Hnd; [constructor|].
  simpl in Hnd. apply NoDup_cons in Hnd as [Hk Hnd].
  specialize (IH Hnd). destruct o as [o|]; [|exact IH].
  simpl. apply NoDup_cons. split; [|exact IH].
  intros Hin. apply Hk.
  apply list_elem_of_fmap in Hin as ([d o'] & Hd & Hin). simpl in Hd. subst d.
  apply list_elem_of_omap in Hin as ([c' o''] & Hin' & Heq).
  simpl in Heq. destruct o'' as [o''|]; [|done]. simpl in Heq.
  injection Heq as Hdi _.
  apply list_elem_of_fmap. exists (c', Some o''). split; [|done]. simpl.
  rewrite Forall_forall in Hl.
  apply (columns_key_dataIndex lf c c' Hc); [|done].
  exact (Hl (c', Some o'') Hin').
Qed.

Lemma reported_not_index (lf : list Location)
    (reported : list (ColumnType * option SortOrder)) :
  Forall (fun co => co.1 ∈ columns lf) reported ->
  Forall (fun ko : string * option SortOrder => JsObject.array_index ko.1 = None)
    (omap (fun co : ColumnType * option SortOrder =>
             (fun o => (dataIndex co.1, Some o)) <$> co.2) reported).
Proof.
  induction 1 as [|[c o] l Hc _ IH]; [constructor|].
  destruct o as [o|]; [|exact IH]. simpl. constructor; [|exact IH].
  exact (proj2 (columns_dataIndex lf c Hc)).
Qed.

Lemma sorterPairs_reported (reported : list (ColumnType * option SortOrder)) :
  flat_map sorterPairs
    (omap (fun co : ColumnType * option SortOrder =>
             (fun o => (dataIndex co.1, Some o)) <$> co.2) reported)
  = flat_map (fun co : ColumnType * option SortOrder =>
                match co.2 with
                | Some o => [("sortField", dataIndex co.1);
                             ("sortOrder", SortOrder_str o)]
                | None => []
                end) reported.
Proof.
  induction reported as [|[c [o|]] l IH]; [done|..]; simpl.
  - do 2 f_equal. exact IH.
  - exact IH.
Qed.

End Sorters.

Section TableChange.
Import Leaderboard.

(** C9. A change of the table's filters or sorters sets the current
    page to 1 and keeps the page size (and the total), so the next
    list-users request asks for page 1 with the page size of before. *)
Theorem handleTableChange_resets_page
    (st : State) (p : TablePaginationConfig)
    (newFilters : JsObject.t (option (list string))) (newSorters : SorterArg) :
  let st' := handleTableChange p newFilters newSorters st in
  current (pagination st') = Some 1 /\
  pageSize (pagination st') = pageSize (pagination st) /\
  total (pagination st') = total (pagination st) /\
  URLSearchParams.get "page" (usersRequest st') = Some "1" /\
  URLSearchParams.get "per_page" (usersRequest st')
  = URLSearchParams.get "per_page" (usersRequest st).
Proof.
  simpl. repeat split.
  - unfold usersRequest, fetchUsers. simpl. by rewrite get_page.
  - unfold usersRequest, fetchUsers. simpl. by rewrite !get_per_page.
Qed.

(** C5. After a table change that reports columns of the table, each
    once, with their sort orders, the next list-users request is: page
    1 and the page size, the parameters of the new filters, then one
    sortField and sortOrder pair per reported column whose order is not
    null, in the order the table reported them, the field being the
    column's dataIndex; a column whose order is null has no pair. *)
Theorem handleTableChange_sort_params
    (st : State) (p : TablePaginationConfig)
    (newFilters : JsObject.t (option (list string))) (newSorters : SorterArg)
    (reported : list (ColumnType * option SortOrder)) :
  sortersArray newSorters = map sorterResultOf reported ->
  Forall (fun co => co.1 ∈ columns (locationFilters st)) reported ->
  NoDup (map (fun co => key co.1) reported) ->
  usersRequest (handleTableChange p newFilters newSorters st)
  = [("page", "1");
     ("per_page", toString (or_default (pageSize (pagination st)) 10))]
    ++ flat_map filterPairs newFilters
    ++ flat_map (fun co : ColumnType * option SortOrder =>
                   match co.2 with
                   | Some o => [("sortField", dataIndex co.1);
                                ("sortOrder", SortOrder_str o)]
                   | None => []
                   end) reported.
Proof.
  intros Harr Hcols Hnd.
  unfold usersRequest, fetchUsers, handleTableChange. simpl.
  rewrite queryParams_pairs. simpl current. simpl pageSize.
  unfold formattedSorters. rewrite Harr.
  rewrite foldl_formatSorter.
  - rewrite app_nil_l, (activeSorter_reported _ _ Hcols).
    by rewrite sorterPairs_reported.
  - rewrite app_nil_l, (activeSorter_reported _ _ Hcols).
    by apply (reported_keys_NoDup (locationFilters st)).
  - rewrite (activeSorter_reported _ _ Hcols).
    by apply (reported_not_index (locationFilters st)).
Qed.

Lemma handleTableChange_sort_params_witness :
  Forall (fun co => co.1 ∈ columns (locationFilters initialState))
    Samples.reported_columns /\
  NoDup (map (fun co => key co.1) Samples.reported_columns) /\
  usersRequest
    (handleTableChange initialPagination Samples.some_filters
       (Multiple (map sorterResultOf Samples.reported_columns)) initialState)
  = [("page", "1"); ("per_page", "10");
     ("gender", "Male"); ("gender", "Other");
     ("sortField", "followers"); ("sortOrder", "descend");
     ("sortField", "estimated_earnings"); ("sortOrder", "ascend")].
Proof.
  assert (Forall (fun co => co.1 ∈ columns (locationFilters initialState))
            Samples.reported_columns) as Hcols.
  { repeat constructor. }
  assert (NoDup (map (fun co => key co.1) Samples.reported_columns)) as Hnd.
  { apply (bool_decide_unpack _). vm_compute. exact I. }
  split; [exact Hcols|]. split; [exact Hnd|].
  exact (eq_trans
           (handleTableChange_sort_params initialState initialPagination
              Samples.some_filters
              (Multiple (map sorterResultOf Samples.reported_columns))
              Samples.reported_columns eq_refl Hcols Hnd)
           eq_refl).
Defined.

End TableChange.

(** ** The earnings cell *)

Section Earnings.
Import Leaderboard.

Local Open Scope Q_scope.

Lemma Math_round_lower (x : Q) : x - (1 # 2) < inject_Z (Math_round x).
Proof.
  unfold Math_round.
  pose proof (Qlt_floor (x + (1 # 2))) as H.
  rewrite inject_Z_plus in H. change (inject_Z 1) with 1 in H. lra.
Qed.

Lemma Math_round_upper (x : Q) : inject_Z (Math_round x) <= x + (1 # 2).
Proof. unfold Math_round. apply Qfloor_le. Qed.

(** An integer between x - 1 and x is the floor of x. *)
Lemma Qfloor_unique (x : Q) (n : Z) :
  inject_Z n <= x -> x < inject_Z (n + 1) -> Qfloor x = n.
Proof.
  intros Hle Hlt.
  pose proof (Qfloor_le x) as H1. pose proof (Qlt_floor x) as H2.
  assert (inject_Z n < inject_Z (Qfloor x + 1)) as Ha by lra.
  assert (inject_Z (Qfloor x) < inject_Z (n + 1)) as Hb by lra.
  rewrite <- Zlt_Qlt in Ha, Hb. lia.
Qed.

(** What [Math.round] makes of an estimate: the nearest whole dollar, a
    half going up. The amount is above the estimate by at most one half
    and below it by less than one half, and it stays at or below the
    estimate only when the fraction of the estimate is below one half. *)
Lemma earningsAmount_nearest (estimated_earnings : Q) :
  estimated_earnings - (1 # 2) < inject_Z (earningsAmount estimated_earnings) /\
  inject_Z (earningsAmount estimated_earnings) <= estimated_earnings + (1 # 2) /\
  (inject_Z (earningsAmount estimated_earnings) <= estimated_earnings <->
   estimated_earnings - inject_Z (Qfloor estimated_earnings) < 1 # 2).
Proof.
  unfold earningsAmount.
  split; [apply Math_round_lower|]. split; [apply Math_round_upper|].
  set (x := estimated_earnings).
  pose proof (Qfloor_le x) as H1. pose proof (Qlt_floor x) as H2.
  rewrite inject_Z_plus in H2. change (inject_Z 1) with 1 in H2.
  split.
  - intros Hle.
    destruct (Qlt_le_dec (x - inject_Z (Qfloor x)) (1 # 2)) as [|Hge]; [done|].
    exfalso.
    assert (inject_Z (Qfloor x + 1) <= x + (1 # 2)) as Hup.
    { rewrite inject_Z_plus. change (inject_Z 1) with 1. lra. }
    apply Qfloor_resp_le in Hup. rewrite Qfloor_Z in Hup.
    fold (Math_round x) in Hup. rewrite Zle_Qle, inject_Z_plus in Hup.
    change (inject_Z 1) with 1 in Hup. lra.
  - intros Hfrac.
    assert (Math_round x = Qfloor x) as ->; [|done].
    unfold Math_round. apply Qfloor_unique.
    + lra.
    + rewrite inject_Z_plus. change (inject_Z 1) with 1. lra.
Qed.

(** C2. The cell presents its amount, followed by a plus sign, as a
    lower bound of the stored estimate, and the amount shown must not
    exceed it. The cell rounds to the nearest dollar instead of down: an
    estimate of 10.5 is shown as 11 dollars and more, which exceeds
    it. *)
Lemma earningsAmount_exceeds_estimate :
  earningsAmount (21 # 2) = 11%Z /\
  renderEarnings (21 # 2) = "$11+ USD/mo"%string /\
  ~ (inject_Z (earningsAmount (21 # 2)) <= 21 # 2).
Proof.
  split; [reflexivity|]. split; [by vm_compute|].
  intros H. vm_compute in H. by apply H.
Qed.

End Earnings.

(** ** Sponsorship-history requests of the user detail page *)

Section History.
Import User.

Implicit Types (p : Page) (e : Event) (st : State).

Lemma commit_state p : state (commit p).1 = state p.
Proof. unfold commit. by destruct (present (id (state p))). Qed.

Lemma commit_synced p : deps_synced (commit p).1.
Proof.
  unfold deps_synced, commit.
  destruct (present (id (state p))) eqn:Hp; simpl; [done|].
  intros Hp'. congruence.
Qed.

Lemma handle_interval e st :
  possible e st -> interval_ok st -> interval_ok (handle e st).
Proof.
  unfold interval_ok.
  destruct e as [val|v|i|[|ok status [d|]]|[|[] status [d|]]]; simpl; try done.
  intros [_ Hval] _. rewrite !elem_of_cons, elem_of_nil in Hval. tauto.
Qed.

Lemma handle_present e st :
  possible e st -> present (id (handle e st)) = present (id st).
Proof.
  destruct e as [val|v|i|[|ok status [d|]]|[|[] status [d|]]]; simpl; done.
Qed.

Lemma reachable_inv p : reachable p -> interval_ok (state p) /\ deps_synced p.
Proof.
  induction 1 as [i|p e Hp [IHi IHd] Hpos].
  - split; [|apply commit_synced].
    unfold mount. rewrite commit_state. by left.
  - split; [|apply commit_synced].
    unfold step. rewrite commit_state. simpl. by apply handle_interval.
Qed.

Lemma fetchHistory_present st :
  present (id st) = true ->
  exists i, id st = Some i /\ fetchHistory st = [HistoryRequest i (historyInterval st)].
Proof.
  unfold fetchHistory. destruct (id st) as [i|] eqn:Hid; [|done].
  intros ->. by exists i.
Qed.

Lemma getUserData_no_history st : List.filter is_history (getUserData st) = [].
Proof. unfold getUserData. by destruct (id st). Qed.

(** The history requests of a step of a rendered page. *)
Lemma step_history_requests p e :
  deps_synced p -> possible e (state p) -> present (id (state p)) = true ->
  let st := state p in
  let st' := handle e st in
  state (step e p).1 = st' /\
  List.filter is_history (step e p).2
  = if decide (id st' = id st /\ historyInterval st' = historyInterval st)
    then []
    else fetchHistory st'.
Proof.
  intros Hsync Hpos Hpres. simpl.
  destruct (Hsync Hpres) as [Hhd Hud].
  split; [unfold step; by rewrite commit_state|].
  unfold step, commit. simpl.
  rewrite (handle_present e (state p) Hpos), Hpres. simpl.
  rewrite List.filter_app, Hhd.
  destruct (fetchHistory_present (handle e (state p))) as (i' & Hid' & Hreq);
    [by rewrite (handle_present e (state p) Hpos)|].
  assert (List.filter is_history
            (if decide (userDeps p = Some (id (handle e (state p))))
             then [] else getUserData (handle e (state p))) = []) as ->.
  { case_decide; [done|apply getUserData_no_history]. }
  rewrite app_nil_r.
  destruct (decide (Some (id (state p), historyInterval (state p))
                    = Some (id (handle e (state p)),
                            historyInterval (handle e (state p)))))
    as [Hsame|Hdiff];
    destruct (decide (id (handle e (state p)) = id (state p)
                      /\ historyInterval (handle e (state p))
                         = historyInterval (state p)))
    as [Heq|Hne]; simpl; try done.
  - exfalso. apply Hne. injection Hsame as -> ->. done.
  - exfalso. apply Hdiff. destruct Heq as [-> ->]. done.
  - by rewrite Hreq.
Qed.

(** C4. On the user detail page the selected interval starts as W and
    is W or M after every event. A sponsorship-history request carries
    the interval selected when it is issued, for the id of the page.
    The page issues such a request when it mounts with an id, and
    after that one request exactly at the events that change the id or
    the selected interval, and at no other event. *)
Theorem history_requests_follow_interval (p : Page) (e : Event) :
  reachable p -> possible e (state p) ->
  let st := state p in
  let st' := state (step e p).1 in
  let rs := (step e p).2 in
  (forall i, historyInterval (state (mount i).1) = "W") /\
  (forall i, present (Some i) = true -> (mount (Some i)).2
             = [HistoryRequest i "W"; UserRequest i]) /\
  (historyInterval st' = "W" \/ historyInterval st' = "M") /\
  (forall r, r ∈ rs -> is_history r = true ->
             interval_param r = Some (historyInterval st')) /\
  (present (id st) = true ->
     (forall i iv, HistoryRequest i iv ∈ rs -> id st' = Some i) /\
     ((exists i iv, HistoryRequest i iv ∈ rs) <->
      (id st' <> id st \/ historyInterval st' <> historyInterval st)) /\
     (length (List.filter is_history rs) <= 1)%nat).
Proof.
  intros Hreach Hpos. simpl.
  destruct (reachable_inv p Hreach) as [Hiv Hsync].
  assert (state (step e p).1 = handle e (state p)) as Hst'
    by (unfold step; by rewrite commit_state).
  split; [intros i; unfold mount; by rewrite commit_state|].
  split.
  { intros i Hi. unfold mount, commit. simpl. rewrite Hi.
    unfold fetchHistory. simpl. by rewrite Hi. }
  split; [rewrite Hst'; by apply handle_interval|].
  split.
  { intros r Hr Hh. rewrite Hst'. revert Hr.
    unfold step, commit. simpl.
    destruct (present (id (handle e (state p)))) eqn:Hp'; simpl;
      [|by rewrite elem_of_nil].
    destruct (fetchHistory_present _ Hp') as (i' & Hid' & Hreq).
    rewrite Hreq, elem_of_app. intros [Hr|Hr].
    - case_decide; [by apply elem_of_nil in Hr|].
      apply list_elem_of_singleton in Hr. by subst r.
    - case_decide; [by apply elem_of_nil in Hr|].
      unfold getUserData in Hr. rewrite Hid' in Hr.
      apply list_elem_of_singleton in Hr. by subst r. }
  intros Hpres.
  destruct (step_history_requests p e Hsync Hpos Hpres) as [_ Hrs].
  simpl in Hrs. rewrite Hst'.
  destruct (fetchHistory_present (handle e (state p))) as (i' & Hid' & Hreq);
    [by rewrite (handle_present e (state p) Hpos)|].
  assert (forall i iv, HistoryRequest i iv ∈ (step e p).2 <->
                       HistoryRequest i iv ∈ List.filter is_history (step e p).2)
    as Hmem.
  { intros i iv. rewrite !list_elem_of_In, List.filter_In. simpl. tauto. }
  rewrite Hrs, Hreq in *.
  split; [|split].
  - intros i iv Hin. apply Hmem in Hin. case_decide.
    + by apply elem_of_nil in Hin.
    + apply list_elem_of_singleton in Hin. congruence.
  - split.
    + intros (i & iv & Hin). apply Hmem in Hin. case_decide as Hd.
      * by apply elem_of_nil in Hin.
      * destruct (decide (id (handle e (state p)) = id (state p))); [|by left].
        right. intros Heq. by apply Hd.
    + intros Hch. exists i', (historyInterval (handle e (state p))).
      apply Hmem. case_decide as Hd.
      * destruct Hd as [H1 H2]. by destruct Hch.
      * by apply list_elem_of_singleton.
  - case_decide; simpl; lia.
Qed.

Lemma history_requests_follow_interval_witness :
  reachable Samples.page_42 /\
  possible (IntervalChange "M") (state Samples.page_42) /\
  present (id (state Samples.page_42)) = true /\
  exists i iv,
    HistoryRequest i iv ∈ (step (IntervalChange "M") Samples.page_42).2.
Proof.
  assert (reachable Samples.page_42) as Hreach.
  { unfold Samples.page_42.
    apply reachable_step; [apply reachable_step; [apply reachable_mount|exact I]|].
    reflexivity. }
  assert (possible (IntervalChange "M") (state Samples.page_42)) as Hpos.
  { split; [reflexivity|]. repeat constructor. }
  split; [exact Hreach|]. split; [exact Hpos|]. split; [reflexivity|].
  pose proof (history_requests_follow_interval Samples.page_42
                (IntervalChange "M") Hreach Hpos) as (_ & _ & _ & _ & Hchg).
  destruct (Hchg eq_refl) as (_ & [_ Hissue] & _).
  apply Hissue. right. discriminate.
Defined.

End History.

(** ** The brief-stats refresh loop *)

Section StatsLoop.
Import Leaderboard.

Implicit Types (l : Loop) (e : Event) (es : list Event).

Lemma step_inv l e l' :
  step l e l' ->
  fetching l \/ waiting l \/ stopped l ->
  fetching l' \/ waiting l' \/ stopped l'.
Proof.
  unfold fetching, waiting, stopped.
  destruct 1 as [r l Hin|t ts l Ht|f l]; simpl; [| |done].
  - intros [[Hi Htm]|[[Hi Htm]|[Hi Htm]]]; try lia.
    destruct r as [|[] status [d|]]; simpl; rewrite Hi, Htm; simpl; auto.
  - intros [[Hi Htm]|[[Hi Htm]|[Hi Htm]]]; try congruence.
    rewrite Ht in Htm. injection Htm as -> ->. simpl. rewrite Hi. auto.
Qed.

Lemma mounted_fetching : fetching mounted.
Proof. by split. Qed.

Lemma steps_inv l es l' :
  steps l es l' ->
  fetching l \/ waiting l \/ stopped l ->
  fetching l' \/ waiting l' \/ stopped l'.
Proof.
  induction 1 as [l|l e l1 es l2 Hstep _ IH]; [done|].
  intros Hl. apply IH. by apply (step_inv l e).
Qed.

Lemma run_inv es l : run es l -> fetching l \/ waiting l \/ stopped l.
Proof. intros Hrun. apply (steps_inv mounted es l Hrun). left. apply mounted_fetching. Qed.

(** A stopped loop stays stopped and issues no fetch. *)
Lemma stopped_step l e l' :
  step l e l' -> stopped l -> stopped l' /\ issued l' = issued l.
Proof.
  unfold stopped. destruct 1 as [r l Hin|t ts l Ht|f l]; simpl; intros [Hi Htm].
  - lia.
  - congruence.
  - done.
Qed.

Lemma stopped_steps l es l' :
  steps l es l' -> stopped l -> stopped l' /\ issued l' = issued l.
Proof.
  induction 1 as [l|l e l1 es l2 Hstep _ IH]; [done|].
  intros Hl. destruct (stopped_step l e l1 Hstep Hl) as [Hl1 Hiss].
  destruct (IH Hl1) as [Hl2 Hiss2]. split; [done|congruence].
Qed.

(** The only step that adds a timer is a fetch that settles with
    success. *)
Lemma step_adds_timer l e l' :
  step l e l' -> (length (timers l) < length (timers l'))%nat ->
  exists status data,
    e = Settled (Response true status (Some data)) /\
    timers l' = timers l ++ [ {| callback := cb_getLeaderboardStats; delay := 15000 |} ].
Proof.
  destruct 1 as [r l Hin|t ts l Ht|f l]; simpl.
  - destruct r as [|[] status [d|]]; simpl; try lia. intros _. by exists status, d.
  - rewrite Ht. destruct (callback t). simpl. lia.
  - lia.
Qed.

(** C10. In a run of the refresh loop that starts when the page
    mounts: a timer is added only by a brief-stats fetch that settles
    with success, and it is the timer of the next fetch, 15000 ms
    later; a fetch is issued only when such a timer fires; and when a
    fetch fails (the request is rejected, the status is not ok or the
    body is not JSON) no timer is pending and none is awaited, and from
    then on no event adds a timer or issues a fetch. *)
Theorem stats_loop_stops_on_failure es l e l' :
  run es l -> step l e l' ->
  ((length (timers l) < length (timers l'))%nat ->
   exists status data,
     e = Settled (Response true status (Some data)) /\
     timers l' = [ {| callback := cb_getLeaderboardStats; delay := 15000 |} ]) /\
  (issued l' <> issued l ->
   e = TimerFired /\ issued l' = S (issued l) /\
   timers l = [ {| callback := cb_getLeaderboardStats; delay := 15000 |} ]) /\
  (forall r, e = Settled r -> succeeded r = true ->
             inflight l' = 0%nat /\
             timers l' = [ {| callback := cb_getLeaderboardStats; delay := 15000 |} ]) /\
  (forall r, e = Settled r -> succeeded r = false ->
             stopped l' /\
             forall es' l'', steps l' es' l'' ->
                             stopped l'' /\ issued l'' = issued l').
Proof.
  intros Hrun Hstep.
  pose proof (run_inv es l Hrun) as Hinv.
  split; [|split; [|split]].
  - intros Hgrow.
    destruct (step_adds_timer l e l' Hstep Hgrow) as (status & data & -> & Htm).
    exists status, data. split; [done|].
    inversion Hstep as [r l0 Hin| |]; subst.
    destruct Hinv as [[_ Hnil]|[[Hi _]|[Hi _]]]; try lia.
    by rewrite Htm, Hnil.
  - intros Hiss. destruct Hstep as [r l Hin|t ts l Ht|f l]; simpl in *.
    + by destruct r as [|[] status [d|]].
    + destruct (callback t). simpl in *. split; [done|]. split; [done|].
      destruct Hinv as [[_ Hnil]|[[_ Htm]|[_ Hnil]]]; congruence.
    + done.
  - intros r -> Hok. inversion Hstep as [r0 l0 Hin| |]; subst.
    destruct Hinv as [[Hi Hnil]|[[Hi _]|[Hi _]]]; try lia.
    destruct r as [|[] status [d|]]; try done. simpl. by rewrite Hi, Hnil.
  - intros r -> Hfail. inversion Hstep as [r0 l0 Hin| |]; subst.
    assert (stopped (getLeaderboardStats_settled r l)) as Hstop.
    { destruct Hinv as [[Hi Hnil]|[[Hi _]|[Hi _]]]; try lia.
      unfold stopped. destruct r as [|[] status [d|]]; try done; simpl;
        by rewrite Hi, Hnil. }
    split; [done|]. intros es' l'' Hsteps. by apply (stopped_steps _ es').
Qed.

Lemma stats_loop_stops_on_failure_witness :
  run [Settled (Response true 200 (Some Samples.some_stats)); TimerFired]
    Samples.loop_2 /\
  step Samples.loop_2 (Settled NetworkError)
    (getLeaderboardStats_settled NetworkError Samples.loop_2) /\
  stopped (getLeaderboardStats_settled NetworkError Samples.loop_2).
Proof.
  assert (run [Settled (Response true 200 (Some Samples.some_stats)); TimerFired]
            Samples.loop_2) as Hrun.
  { apply (steps_cons mounted _ Samples.loop_1).
    - apply step_settled. vm_compute. lia.
    - apply (steps_cons Samples.loop_1 _ Samples.loop_2); [|apply steps_nil].
      exact (step_timer {| callback := cb_getLeaderboardStats; delay := 15000 |}
               [] Samples.loop_1 eq_refl). }
  assert (step Samples.loop_2 (Settled NetworkError)
            (getLeaderboardStats_settled NetworkError Samples.loop_2)) as Hstep.
  { apply step_settled. vm_compute. lia. }
  split; [exact Hrun|]. split; [exact Hstep|].
  pose proof (stats_loop_stops_on_failure _ _ _ _ Hrun Hstep) as (_ & _ & _ & Hfail).
  exact (proj1 (Hfail NetworkError eq_refl eq_refl)).
Defined.

End StatsLoop.


(** * Further properties of the pages *)

(** ** Cell texts *)

Section Cells.
Import Leaderboard LeaderboardView.

Lemma length_append (a b : string) :
  String.length (a +:+ b) = (String.length a + String.length b)%nat.
Proof. induction a as [|c a IH]; simpl; [done|]. by rewrite IH. Qed.

Lemma length_substring_0 (n : nat) (s : string) :
  String.length (substring 0 n s) = Nat.min n (String.length s).
Proof.
  revert s. induction n as [|n IH]; intros [|c s]; simpl; try done.
  by rewrite IH.
Qed.

(** A text cut to its first [keep] characters and three dots. *)
Lemma cut_length (keep : nat) (s : string) :
  (keep <= String.length s)%nat ->
  String.length (substring 0 keep s +:+ "...") = (keep + 3)%nat.
Proof. intros Hle. rewrite length_append, length_substring_0. simpl. lia. Qed.

Lemma cut_get (keep i : nat) (s : string) :
  (i < keep)%nat -> (keep <= String.length s)%nat ->
  get i (substring 0 keep s +:+ "...") = get i s.
Proof.
  intros Hi Hle. rewrite <- append_correct1.
  - rewrite substring_correct1 by done. by rewrite Nat.add_0_r.
  - rewrite length_substring_0. lia.
Qed.

(** X1. The username cell shows at most 16 characters and the name cell
    at most 14, never more than the text has; a username of at most 15
    characters and a name of at most 13 are shown as they are; the first
    13 characters of a username and the first 11 of a name are always
    those of the text. *)
Theorem cells_cut_long_texts (s : string) :
  ((String.length (renderUsername s) <= 16)%nat /\
   (String.length (renderUsername s) <= String.length s)%nat /\
   ((String.length s <= 15)%nat -> renderUsername s = s) /\
   (forall i, (i < 13)%nat -> get i (renderUsername s) = get i s)) /\
  ((String.length (renderName s) <= 14)%nat /\
   (String.length (renderName s) <= String.length s)%nat /\
   ((String.length s <= 13)%nat -> renderName s = s) /\
   (forall i, (i < 11)%nat -> get i (renderName s) = get i s)).
Proof.
  split.
  - unfold renderUsername.
    destruct (Nat.ltb_spec 15 (String.length s)) as [Hlong|Hshort].
    + assert (String.eqb s "" = false) as ->.
      { apply String.eqb_neq. intros ->. simpl in Hlong. lia. }
      simpl. rewrite cut_length by lia. repeat split; try lia.
      intros i Hi. apply cut_get; lia.
    + rewrite andb_false_r. repeat split; try done; lia.
  - unfold renderName.
    destruct (Nat.ltb_spec 13 (String.length s)) as [Hlong|Hshort].
    + assert (String.eqb s "" = false) as ->.
      { apply String.eqb_neq. intros ->. simpl in Hlong. lia. }
      simpl. rewrite cut_length by lia. repeat split; try lia.
      intros i Hi. apply cut_get; lia.
    + rewrite andb_false_r. repeat split; try done; lia.
Qed.

Lemma cells_cut_long_texts_witness :
  (String.length MoreSamples.short_username <= 15)%nat /\
  renderUsername MoreSamples.short_username = MoreSamples.short_username.
Proof.
  assert (String.length MoreSamples.short_username <= 15)%nat as Hshort
    by (vm_compute; lia).
  split; [exact Hshort|].
  destruct (cells_cut_long_texts MoreSamples.short_username) as [(_ & _ & Hsame & _) _].
  exact (Hsame Hshort).
Defined.

Example renderUsername_long :
  renderUsername MoreSamples.long_username = "a-very-long-u...".
Proof. reflexivity. Qed.

End Cells.

(** ** Rows, once more *)

Section RowsAgain.
Import Leaderboard LeaderboardView.

Lemma mapValue_idempotent (v : Json.value) : mapValue (mapValue v) = mapValue v.
Proof.
  destruct v as [| | |s| |]; simpl; try done.
  destruct (String.eqb s "Organization") eqn:Hs; simpl; [done|]. by rewrite Hs.
Qed.

(** X2. Mapping a row again changes nothing: the rows fetchUsers stores
    are fixed points of its mapping. *)
Theorem mapUser_idempotent (user : gmap string Json.value) :
  mapUser (mapUser user) = mapUser user.
Proof.
  apply map_eq. intros k. rewrite !mapUser_lookup.
  destruct (user !! k) as [v|]; simpl; [|done].
  by rewrite mapValue_idempotent.
Qed.

(** X3. However a list-users or a distinct-locations request settles,
    the page, the page size, the filters and the sorters stay as they
    were, so the settled request asks for no new one; the loading flag a
    call of fetchUsers raised is down again; and after a failed
    list-users request the rows and the total are the ones shown
    before. *)
Theorem settled_requests_keep_the_query
    (r : FetchResult ListUsersBody) (rl : FetchResult (list string))
    (p : TablePaginationConfig) (f : JsObject.t (option (list string)))
    (s : JsObject.t (option SortOrder)) (st : State) :
  effectDeps (fetchUsers_settled r st) = effectDeps st /\
  effectDeps (getLocations_settled rl st) = effectDeps st /\
  usersRequest (fetchUsers_settled r st) = usersRequest st /\
  usersRequest (getLocations_settled rl st) = usersRequest st /\
  loading (fetchUsers p f s st).1 = true /\
  loading (fetchUsers_settled r (fetchUsers p f s st).1) = false /\
  (succeeded r = false ->
   users (fetchUsers_settled r (fetchUsers p f s st).1) = users st /\
   pagination (fetchUsers_settled r (fetchUsers p f s st).1) = pagination st) /\
  (succeeded rl = false -> getLocations_settled rl st = st).
Proof.
  repeat split.
  - by destruct r as [|[] status [d|]].
  - by destruct rl as [|[] status [d|]].
  - by destruct r as [|[] status [d|]].
  - by destruct rl as [|[] status [d|]].
  - by destruct r as [|[] status [d|]].
  - by destruct r as [|[] status [d|]].
  - by destruct r as [|[] status [d|]].
  - by destruct rl as [|[] status [d|]].
Qed.

Lemma settled_requests_keep_the_query_witness :
  succeeded (Response false 500 None : FetchResult ListUsersBody) = false /\
  users (fetchUsers_settled (Response false 500 None)
           (fetchUsers initialPagination [] [] initialState).1) = [].
Proof.
  split; [reflexivity|].
  destruct (settled_requests_keep_the_query (Response false 500 None) NetworkError
              initialPagination [] [] initialState)
    as (_ & _ & _ & _ & _ & _ & Hfail & _).
  exact (proj1 (Hfail eq_refl)).
Defined.

End RowsAgain.

(** ** Page changes *)

Section PageChange.
Import Leaderboard LeaderboardView.

Lemma or_default_nonzero (n d : Z) : n <> 0 -> or_default (Some n) d = n.
Proof. intros Hn. unfold or_default. by destruct (Z.eqb_spec n 0). Qed.

(** X4. After the pagination control hands over a page and a page size,
    none of them 0, the next list-users request asks for that page with
    that page size and has the filter and sorter parameters of before;
    the total is kept. A table change after it asks for page 1 with the
    chosen page size. A page size of 0 is sent as 10 and a page of 0
    as 1. *)
Theorem onPaginationChange_request (page size : Z) (st : State) :
  page <> 0 -> size <> 0 ->
  let st' := onPaginationChange page size st in
  usersRequest st'
  = ("page", toString page) :: ("per_page", toString size) :: drop 2 (usersRequest st) /\
  total (pagination st') = total (pagination st) /\
  (forall p f s,
      URLSearchParams.get "page" (usersRequest (handleTableChange p f s st')) = Some "1" /\
      URLSearchParams.get "per_page" (usersRequest (handleTableChange p f s st'))
      = Some (toString size)) /\
  URLSearchParams.get "per_page" (usersRequest (onPaginationChange page 0 st)) = Some "10" /\
  URLSearchParams.get "page" (usersRequest (onPaginationChange 0 size st)) = Some "1".
Proof.
  intros Hpage Hsize st'. subst st'. unfold usersRequest, fetchUsers.
  cbn [snd onPaginationChange setPagination pagination filters sorters current pageSize total handleTableChange setFilters setSorters].
  split; [|split; [|split; [|split]]].
  - rewrite !queryParams_pairs. cbn [current pageSize drop app].
    rewrite !or_default_nonzero by done. reflexivity.
  - done.
  - intros p f s. rewrite get_page, get_per_page. cbn [current pageSize].
    rewrite (or_default_nonzero size) by done. split; reflexivity.
  - rewrite get_per_page. reflexivity.
  - rewrite get_page. reflexivity.
Qed.

Lemma onPaginationChange_request_witness :
  usersRequest (onPaginationChange 5 50 initialState)
  = [("page", "5"); ("per_page", "50")].
Proof.
  assert ((5 : Z) <> 0) as H5 by discriminate.
  assert ((50 : Z) <> 0) as H50 by discriminate.
  exact (eq_trans (proj1 (onPaginationChange_request 5 50 initialState H5 H50)) eq_refl).
Defined.

End PageChange.

(** ** Sorters of any table change *)

Section AnySorters.
Import Leaderboard LeaderboardView.

Implicit Types (k : string) (acc o : JsObject.t (option SortOrder)).

Lemma lookup_replace {V} k (v : V) (o : JsObject.t V) :
  JsObject.has k o = true -> lookup k (JsObject.replace k v o) = Some v.
Proof.
  unfold lookup, JsObject.has. induction o as [|[k' v'] o IH]; simpl; [done|].
  destruct (String.eqb k' k) eqn:Hk; simpl.
  - by rewrite Hk.
  - rewrite Hk. exact IH.
Qed.

Lemma lookup_replace_ne {V} k k' (v : V) (o : JsObject.t V) :
  k' <> k -> lookup k' (JsObject.replace k v o) = lookup k' o.
Proof.
  intros Hne. unfold lookup. induction o as [|[k0 v0] o IH]; simpl; [done|].
  destruct (String.eqb_spec k0 k) as [->|Hk0]; simpl.
  - apply not_eq_sym, String.eqb_neq in Hne. by rewrite Hne.
  - destruct (String.eqb k0 k'); [done|exact IH].
Qed.

Lemma keys_replace {V} k (v : V) (o : JsObject.t V) :
  JsObject.keys (JsObject.replace k v o) = JsObject.keys o.
Proof.
  unfold JsObject.keys. induction o as [|[k' v'] o IH]; simpl; [done|].
  destruct (String.eqb k' k); simpl; [done|]. by rewrite IH.
Qed.

Lemma insert_index_perm {V} (n : N) k (v : V) (o : JsObject.t V) :
  JsObject.insert_index n k v o ≡ₚ (k, v) :: o.
Proof.
  induction o as [|[k' v'] o IH]; simpl; [done|].
  destruct (JsObject.array_index k') as [m|]; [|done].
  destruct (m <? n)%N; [|done].
  rewrite IH. apply perm_swap.
Qed.

Lemma lookup_fresh_perm {V} k (v : V) (o o' : JsObject.t V) :
  JsObject.has k o = false -> o' ≡ₚ (k, v) :: o -> lookup k o' = Some v.
Proof.
  intros Hhas Hperm. unfold lookup.
  destruct (List.find (fun p => String.eqb p.1 k) o') as [[k1 v1]|] eqn:Hfind; simpl.
  - apply List.find_some in Hfind as [Hin Hk1]. simpl in Hk1.
    apply String.eqb_eq in Hk1. subst k1.
    apply list_elem_of_In in Hin. rewrite Hperm in Hin.
    apply elem_of_cons in Hin as [[= ->]|Hin]; [done|].
    exfalso. unfold JsObject.has in Hhas.
    apply not_true_iff_false in Hhas. apply Hhas.
    apply existsb_exists. exists (k, v1). split; [by apply list_elem_of_In|].
    apply String.eqb_refl.
  - exfalso.
    assert (In (k, v) o') as Hin.
    { apply list_elem_of_In. rewrite Hperm. by left. }
    pose proof (List.find_none _ _ Hfind (k, v) Hin) as Hf.
    simpl in Hf. by rewrite String.eqb_refl in Hf.
Qed.

Lemma find_insert_index_ne {V} (n : N) k k' (v : V) (o : JsObject.t V) :
  k' <> k ->
  List.find (fun p => String.eqb p.1 k') (JsObject.insert_index n k v o)
  = List.find (fun p => String.eqb p.1 k') o.
Proof.
  intros Hne. apply not_eq_sym, String.eqb_neq in Hne.
  induction o as [|[k0 v0] o IH]; simpl.
  - by rewrite Hne.
  - destruct (JsObject.array_index k0) as [m|]; simpl.
    + destruct (m <? n)%N; simpl.
      * destruct (String.eqb k0 k'); [done|exact IH].
      * by rewrite Hne.
    + by rewrite Hne.
Qed.

Lemma find_app_ne {V} k k' (v : V) (o : JsObject.t V) :
  k' <> k ->
  List.find (fun p => String.eqb p.1 k') (o ++ [(k, v)])
  = List.find (fun p => String.eqb p.1 k') o.
Proof.
  intros Hne. apply not_eq_sym, String.eqb_neq in Hne.
  induction o as [|[k0 v0] o IH]; simpl.
  - by rewrite Hne.
  - destruct (String.eqb k0 k'); [done|exact IH].
Qed.

(** Reading a property after assigning it gives the assigned value. *)
Lemma lookup_set {V} k (v : V) (o : JsObject.t V) :
  lookup k (JsObject.set k v o) = Some v.
Proof.
  unfold JsObject.set. destruct (JsObject.has k o) eqn:Hhas.
  - by apply lookup_replace.
  - destruct (JsObject.array_index k) as [n|].
    + apply (lookup_fresh_perm k v o); [done|apply insert_index_perm].
    + apply (lookup_fresh_perm k v o); [done|].
      by rewrite Permutation_app_comm.
Qed.

(** Assigning a property leaves the others as they are. *)
Lemma lookup_set_ne {V} k k' (v : V) (o : JsObject.t V) :
  k' <> k -> lookup k' (JsObject.set k v o) = lookup k' o.
Proof.
  intros Hne. unfold JsObject.set. destruct (JsObject.has k o).
  - by apply lookup_replace_ne.
  - unfold lookup. destruct (JsObject.array_index k) as [n|].
    + by rewrite find_insert_index_ne.
    + by rewrite find_app_ne.
Qed.

Lemma has_elem_of {V} k (o : JsObject.t V) :
  JsObject.has k o = false -> k ∉ JsObject.keys o.
Proof.
  unfold JsObject.has, JsObject.keys. intros Hhas Hin.
  apply list_elem_of_fmap in Hin as ([k' v'] & -> & Hin).
  apply not_true_iff_false in Hhas. apply Hhas.
  apply existsb_exists. exists (k', v'). split; [by apply list_elem_of_In|].
  apply String.eqb_refl.
Qed.

(** An object keeps its property names distinct. *)
Lemma keys_set_NoDup {V} k (v : V) (o : JsObject.t V) :
  NoDup (JsObject.keys o) -> NoDup (JsObject.keys (JsObject.set k v o)).
Proof.
  intros Hnd. unfold JsObject.set. destruct (JsObject.has k o) eqn:Hhas.
  - by rewrite keys_replace.
  - apply has_elem_of in Hhas.
    destruct (JsObject.array_index k) as [n|]; unfold JsObject.keys in *.
    + rewrite (insert_index_perm n k v o). simpl. by apply NoDup_cons.
    + rewrite fmap_app. simpl. rewrite Permutation_app_comm. simpl.
      by apply NoDup_cons.
Qed.

End AnySorters.

Section AnySortersRequest.
Import Leaderboard LeaderboardView.

Implicit Types (k : string) (acc o : JsObject.t (option SortOrder)).

Lemma find_app_first {A} (f : A -> bool) (l1 l2 : list A) :
  List.find f (l1 ++ l2)
  = match List.find f l1 with Some x => Some x | None => List.find f l2 end.
Proof.
  induction l1 as [|a l1 IH]; simpl; [done|]. by destruct (f a).
Qed.

Lemma lastOrder_cons k (s : SorterResult) (l : list SorterResult) :
  lastOrder k (s :: l)
  = match lastOrder k l with
    | Some v => Some v
    | None => match activeSorter s with
              | Some ko => if String.eqb ko.1 k then Some ko.2 else None
              | None => None
              end
    end.
Proof.
  unfold lastOrder.
  change (omap activeSorter (s :: l))
    with (match activeSorter s with
          | Some y => y :: omap activeSorter l
          | None => omap activeSorter l
          end).
  destruct (activeSorter s) as [[k0 o0]|].
  - change (rev ((k0, o0) :: omap activeSorter l))
      with (rev (omap activeSorter l) ++ [(k0, o0)]).
    rewrite find_app_first.
    destruct (List.find _ (rev (omap activeSorter l))) as [x|]; simpl; [done|].
    by destruct (String.eqb k0 k).
  - by destruct (List.find _ (rev (omap activeSorter l))).
Qed.

Lemma foldl_formatSorter_lookup (l : list SorterResult) :
  forall acc k,
    lookup k (foldl formatSorter acc l)
    = match lastOrder k l with
      | Some v => Some v
      | None => lookup k acc
      end.
Proof.
  induction l as [|s l IH]; intros acc k; [done|].
  simpl. rewrite IH, lastOrder_cons, formatSorter_active.
  destruct (lastOrder k l) as [v|]; [done|].
  destruct (activeSorter s) as [[k0 o0]|]; simpl; [|done].
  destruct (String.eqb_spec k0 k) as [->|Hne].
  - apply lookup_set.
  - apply lookup_set_ne. congruence.
Qed.

Lemma foldl_formatSorter_NoDup (l : list SorterResult) :
  forall acc, NoDup (JsObject.keys acc) ->
              NoDup (JsObject.keys (foldl formatSorter acc l)).
Proof.
  induction l as [|s l IH]; intros acc Hnd; [done|].
  simpl. apply IH. rewrite formatSorter_active.
  destruct (activeSorter s) as [[k0 o0]|]; [|done]. by apply keys_set_NoDup.
Qed.

Lemma elem_of_replace {V} k (v : V) (o : JsObject.t V) (kv : string * V) :
  kv ∈ JsObject.replace k v o -> kv = (k, v) \/ kv ∈ o.
Proof.
  induction o as [|[k' v'] o IH]; simpl; [by right|].
  destruct (String.eqb_spec k' k) as [->|Hne]; rewrite !elem_of_cons; [tauto|].
  intros [->|Hin]; [by right; left|]. destruct (IH Hin); tauto.
Qed.

Lemma elem_of_set {V} k (v : V) (o : JsObject.t V) (kv : string * V) :
  kv ∈ JsObject.set k v o -> kv = (k, v) \/ kv ∈ o.
Proof.
  unfold JsObject.set. destruct (JsObject.has k o).
  - apply elem_of_replace.
  - destruct (JsObject.array_index k) as [n|].
    + rewrite (insert_index_perm n k v o), elem_of_cons. tauto.
    + rewrite elem_of_app, list_elem_of_singleton. tauto.
Qed.

Lemma foldl_formatSorter_orders (l : list SorterResult) :
  forall acc, Forall (fun kv => kv.2 <> None) acc ->
              Forall (fun kv => kv.2 <> None) (foldl formatSorter acc l).
Proof.
  induction l as [|s l IH]; intros acc Hacc; [done|].
  simpl. apply IH. rewrite formatSorter_active.
  destruct (activeSorter s) as [[k0 o0]|] eqn:Hs; [|done]. simpl.
  apply Forall_forall. intros kv Hin.
  apply elem_of_set in Hin as [->|Hin].
  - simpl. unfold activeSorter in Hs.
    destruct (field s) as [f|], (order s) as [o1|]; try done.
    destruct (field_truthy f); [|done]. by injection Hs as _ <-.
  - by apply (proj1 (Forall_forall _ _) Hacc).
Qed.

Lemma sortField_values o :
  Forall (fun kv => kv.2 <> None) o ->
  URLSearchParams.getAll "sortField" (flat_map sorterPairs o) = JsObject.keys o /\
  length (flat_map sorterPairs o) = (2 * length o)%nat.
Proof.
  induction 1 as [|[k [v|]] o Hv _ [IHa IHl]]; [done| |done].
  change (flat_map sorterPairs ((k, Some v) :: o))
    with ([("sortField", k); ("sortOrder", SortOrder_str v)] ++ flat_map sorterPairs o).
  rewrite getAll_app, IHa, length_app, IHl. split; [done|]. simpl. lia.
Qed.

(** X5. For any sorter results a table change hands over, the sorters
    object has each field once; the order kept for a field is the one of
    the last result that has this field and an order; no entry has a
    null order; and the next request has one sortField and sortOrder
    pair per entry, the sortField values being the fields of the object
    in its order. *)
Theorem formattedSorters_last_order_wins (newSorters : SorterArg) :
  let o := formattedSorters newSorters in
  NoDup (JsObject.keys o) /\
  (forall k, lookup k o = lastOrder k (sortersArray newSorters)) /\
  (forall k v, (k, v) ∈ o -> v <> None) /\
  (forall p f st,
      usersRequest (handleTableChange p f newSorters st)
      = [("page", "1");
         ("per_page", toString (or_default (pageSize (pagination st)) 10))]
        ++ flat_map filterPairs f ++ flat_map sorterPairs o) /\
  URLSearchParams.getAll "sortField" (flat_map sorterPairs o) = JsObject.keys o /\
  length (flat_map sorterPairs o) = (2 * length o)%nat.
Proof.
  simpl. unfold formattedSorters.
  assert (Forall (fun kv : string * option SortOrder => kv.2 <> None)
            (foldl formatSorter [] (sortersArray newSorters))) as Hord.
  { apply foldl_formatSorter_orders. constructor. }
  split; [apply foldl_formatSorter_NoDup; constructor|].
  split.
  { intros k. rewrite foldl_formatSorter_lookup.
    by destruct (lastOrder k (sortersArray newSorters)). }
  split.
  { intros k v Hin. exact (proj1 (Forall_forall _ _) Hord (k, v) Hin). }
  split.
  { intros p f st. unfold usersRequest, fetchUsers, handleTableChange. simpl.
    by rewrite queryParams_pairs. }
  by apply sortField_values.
Qed.

Lemma formattedSorters_last_order_wins_witness :
  lookup "followers"
    (formattedSorters
       (Multiple [ {| field := Some (FieldKey (KStr "followers")); order := Some descend |};
                   {| field := Some (FieldKey (KStr "name")); order := Some ascend |};
                   {| field := Some (FieldKey (KStr "followers")); order := Some ascend |} ]))
  = Some (Some ascend).
Proof.
  exact (eq_trans
           (proj1 (proj2 (formattedSorters_last_order_wins
                            (Multiple [ {| field := Some (FieldKey (KStr "followers"));
                                           order := Some descend |};
                                        {| field := Some (FieldKey (KStr "name"));
                                           order := Some ascend |};
                                        {| field := Some (FieldKey (KStr "followers"));
                                           order := Some ascend |} ])))
              "followers")
           eq_refl).
Defined.

End AnySortersRequest.

(** ** The earnings cell keeps the order of the estimates *)

Section EarningsOrder.
Import Leaderboard.

Local Open Scope Q_scope.

(** X6. A larger estimate is never shown as a smaller amount, two
    fractions of one value are shown as one amount, and a whole number
    of dollars is shown as it is. *)
Theorem earningsAmount_monotone (e1 e2 : Q) :
  e1 <= e2 ->
  (earningsAmount e1 <= earningsAmount e2)%Z /\
  (e1 == e2 -> earningsAmount e1 = earningsAmount e2) /\
  (forall n : Z, earningsAmount (inject_Z n) = n).
Proof.
  intros Hle. unfold earningsAmount, Math_round. split; [|split].
  - apply Qfloor_resp_le. lra.
  - intros Heq. apply Qfloor_comp. lra.
  - intros n. apply Qfloor_unique.
    + lra.
    + rewrite inject_Z_plus. change (inject_Z 1) with 1. lra.
Qed.

Lemma earningsAmount_monotone_witness :
  (1049 # 100) <= (21 # 2) /\
  (earningsAmount (1049 # 100) <= earningsAmount (21 # 2))%Z.
Proof.
  assert ((1049 # 100) <= (21 # 2)) as Hle by (vm_compute; discriminate).
  split; [exact Hle|].
  exact (proj1 (earningsAmount_monotone (1049 # 100) (21 # 2) Hle)).
Defined.

End EarningsOrder.

(** ** Counting in the refresh loop *)

Section StatsLoopCounts.
Import Leaderboard LeaderboardView.

Implicit Types (l : Loop) (e : Event) (es : list Event).

Lemma step_issued l e l' :
  step l e l' ->
  issued l' = (issued l + timersFired [e])%nat.
Proof.
  unfold timersFired. destruct 1 as [r l Hin|t ts l Ht|f l]; simpl.
  - destruct r as [|[] status [d|]]; simpl; lia.
  - destruct (callback t). simpl. lia.
  - lia.
Qed.

Lemma steps_issued l es l' :
  steps l es l' -> issued l' = (issued l + timersFired es)%nat.
Proof.
  induction 1 as [l|l e l1 es l2 Hstep _ IH].
  - unfold timersFired. simpl. lia.
  - rewrite IH, (step_issued l e l1 Hstep). unfold timersFired. simpl.
    destruct e; simpl; lia.
Qed.

Lemma step_errors l e l' : step l e l' -> errors_ok l -> errors_ok l'.
Proof.
  unfold errors_ok, fetching, waiting, stopped.
  destruct 1 as [r l Hin|t ts l Ht|f l]; simpl; [| |done].
  - intros [[[[Hi Htm]|[Hi Htm]] Herr]|[[Hi Htm] Herr]]; try lia.
    destruct r as [|[] status [d|]]; simpl; rewrite Hi, Htm, Herr; simpl;
      first [ left; split; [right; done|done] | right; split; [done|lia] ].
  - intros [[[[Hi Htm]|[Hi Htm]] Herr]|[[Hi Htm] Herr]]; try congruence.
    rewrite Ht in Htm. injection Htm as -> ->. simpl. rewrite Hi.
    left. split; [by left|done].
Qed.

Lemma steps_errors l es l' : steps l es l' -> errors_ok l -> errors_ok l'.
Proof.
  induction 1 as [l|l e l1 es l2 Hstep _ IH]; [done|].
  intros Hl. apply IH. by apply (step_errors l e).
Qed.

(** X7. In every run of the refresh loop at most one thing is
    outstanding, a fetch in flight or a pending timer, never both and
    never two; the fetches issued so far are the first one and one per
    timer that fired; the loop logs at most one error, and once it has
    logged one it is stopped. *)
Theorem stats_loop_one_outstanding es l :
  run es l ->
  (inflight l + length (timers l) <= 1)%nat /\
  issued l = S (timersFired es) /\
  (errors l <= 1)%nat /\
  (errors l = 1%nat -> stopped l).
Proof.
  intros Hrun.
  assert (errors_ok l) as Herr.
  { apply (steps_errors mounted es l Hrun). left. split; [|done].
    left. apply mounted_fetching. }
  pose proof (steps_issued mounted es l Hrun) as Hiss.
  change (issued mounted) with 1%nat in Hiss.
  unfold errors_ok, fetching, waiting, stopped in Herr.
  destruct Herr as [[[[Hi Htm]|[Hi Htm]] He]|[[Hi Htm] He]];
    rewrite Hi, Htm; simpl; repeat split; try lia.
  all: intros; done.
Qed.

Lemma stats_loop_one_outstanding_witness :
  run [Settled (Response true 200 (Some Samples.some_stats)); TimerFired]
    Samples.loop_2 /\
  issued Samples.loop_2 = 2%nat.
Proof.
  assert (run [Settled (Response true 200 (Some Samples.some_stats)); TimerFired]
            Samples.loop_2) as Hrun.
  { apply (steps_cons mounted _ Samples.loop_1).
    - apply step_settled. vm_compute. lia.
    - apply (steps_cons Samples.loop_1 _ Samples.loop_2); [|apply steps_nil].
      exact (step_timer {| callback := cb_getLeaderboardStats; delay := 15000 |}
               [] Samples.loop_1 eq_refl). }
  split; [exact Hrun|].
  exact (proj1 (proj2 (stats_loop_one_outstanding _ _ Hrun))).
Defined.

End StatsLoopCounts.

(** ** Chart data of the user detail page *)

Section Charts.
Import UserView.

Lemma foldl_pushYear (l : list YearlyActivityData) :
  forall acc,
    foldl pushYear acc l
    = {| s_labels := s_labels acc ++ map (fun d => pretty (year d)) l;
         s_commits := s_commits acc ++ map (fun d => commits (activity_data d)) l;
         s_issues := s_issues acc ++ map (fun d => issues (activity_data d)) l;
         s_prs := s_prs acc ++ map (fun d => pull_requests (activity_data d)) l;
         s_reviews := s_reviews acc ++ map (fun d => reviews (activity_data d)) l |}.
Proof.
  induction l as [|d l IH]; intros acc; simpl.
  - rewrite !app_nil_r. by destruct acc.
  - rewrite IH. simpl. by rewrite <- !app_assoc.
Qed.

(** X8. When the user has yearly activity data, the activity chart has
    one label per year, the years in the reverse of the order they
    arrived in, and four datasets (commits, issues, pull requests, code
    reviews) with one point per label, the points under a label being
    the counts of that label's year. An empty array still gives the four
    datasets, each empty; without a user or without the array there is
    no dataset at all. *)
Theorem activityChartData_series (u : UserModel) (ys : list YearlyActivityData) :
  yearly_activity_data u = Some ys ->
  let c := activityChartData (Some u) in
  labels c = map (fun d => pretty (year d)) (rev ys) /\
  map label (datasets c) = ["Commits"; "Issues"; "Pull Requests"; "Code Reviews"] /\
  Forall (fun ds => length (data ds) = length (labels c)) (datasets c) /\
  length (labels c) = length ys /\
  (forall i d, rev ys !! i = Some d ->
               labels c !! i = Some (pretty (year d)) /\
               map (fun ds => data ds !! i) (datasets c)
               = [Some (commits (activity_data d)); Some (issues (activity_data d));
                  Some (pull_requests (activity_data d));
                  Some (reviews (activity_data d))]) /\
  datasets (activityChartData None) = [] /\
  datasets (activityChartData (Some {| yearly_activity_data := None |})) = [].
Proof.
  intros Hys. unfold activityChartData. rewrite Hys, foldl_pushYear. simpl.
  split; [done|]. split; [done|]. split.
  { repeat constructor; simpl; by rewrite !length_map. }
  split; [by rewrite length_map, length_rev|].
  split; [|done].
  intros i d Hi.
  rewrite !(list_lookup_fmap _ (rev ys) i), Hi. done.
Qed.

Lemma activityChartData_series_witness :
  UserView.yearly_activity_data MoreSamples.two_years <> None /\
  labels (activityChartData (Some MoreSamples.two_years)) = ["2023"; "2024"] /\
  map data (datasets (activityChartData (Some MoreSamples.two_years)))
  = [[120; 310]; [4; 12]; [9; 40]; [3; 25]].
Proof.
  split; [discriminate|].
  destruct (activityChartData_series MoreSamples.two_years _ eq_refl)
    as (Hlabels & _).
  split; [exact (eq_trans Hlabels eq_refl)|reflexivity].
Defined.

Lemma mapM_member (k : string) (l : list Json.value) :
  Json.Null ∉ l ->
  mapM (member k) l = Some (map (fun d => default None (member k d)) l).
Proof.
  induction l as [|d l IH]; [done|].
  rewrite not_elem_of_cons. intros [Hd Hl].
  cbn [mapM]. rewrite (IH Hl). simpl. by destruct d.
Qed.

Lemma mapM_member_null (k : string) (l : list Json.value) :
  Json.Null ∈ l -> mapM (member k) l = None.
Proof.
  intros Hin. apply mapM_None, Exists_exists. by exists Json.Null.
Qed.

Lemma null_elem_or_not (l : list Json.value) : Json.Null ∈ l \/ Json.Null ∉ l.
Proof.
  induction l as [|d l [IH|IH]]; [right; apply not_elem_of_nil|left; by right|].
  destruct d; try (right; rewrite not_elem_of_cons; by split).
  left. by left.
Qed.

(** X9. For a history that is a non-empty array without a null element,
    the sponsorship chart has one label per element, in the order of the
    array, and one dataset, Active Sponsors, with one point per label:
    for an element that is an object, the label is its date and the
    point its active_count (undefined when it has none). An empty array
    gives a chart without labels and datasets. *)
Theorem sponsorshipChartData_points (l : list Json.value) :
  l <> [] -> Json.Null ∉ l ->
  exists c ds,
    sponsorshipChartData (Json.Arr l) = Some c /\
    datasets c = [ds] /\ label ds = "Active Sponsors" /\
    length (labels c) = length l /\ length (data ds) = length l /\
    (forall i fields, l !! i = Some (Json.Obj fields) ->
                      labels c !! i = Some (own "date" fields) /\
                      data ds !! i = Some (own "active_count" fields)) /\
    sponsorshipChartData (Json.Arr []) = Some emptyChart.
Proof.
  intros Hne Hnull. unfold sponsorshipChartData.
  destruct l as [|d0 l0] eqn:Hl; [done|]. rewrite <- Hl in *. clear Hne.
  assert (length_is_zero (Json.Arr l) = false) as -> by by rewrite Hl.
  simpl. rewrite !(mapM_member _ l Hnull).
  eexists _, _. split; [reflexivity|]. simpl.
  split; [done|]. split; [done|]. simpl. rewrite !length_map.
  split; [done|]. split; [done|]. split; [|done].
  intros i fields Hi.
  rewrite !(list_lookup_fmap _ l i), Hi. done.
Qed.

Lemma sponsorshipChartData_points_witness :
  MoreSamples.two_points <> [] /\ (Json.Null ∉ MoreSamples.two_points) /\
  exists c, sponsorshipChartData (Json.Arr MoreSamples.two_points) = Some c /\
            length (labels c) = 2%nat.
Proof.
  assert (MoreSamples.two_points <> []) as Hne by discriminate.
  assert (Json.Null ∉ MoreSamples.two_points) as Hnull.
  { unfold MoreSamples.two_points. rewrite !not_elem_of_cons.
    repeat split; try discriminate. apply not_elem_of_nil. }
  split; [exact Hne|]. split; [exact Hnull|].
  destruct (sponsorshipChartData_points _ Hne Hnull)
    as (c & ds & Hc & _ & _ & Hlen & _).
  exists c. split; [exact Hc|exact Hlen].
Defined.

(** X10. The sponsorship chart computation throws exactly when the
    stored history is truthy, does not have a length of 0, and is not an
    array or has a null element. The history request stores the body of
    any response that is JSON, whatever its status; when that body is an
    object that has no length property equal to 0, as an error body, the
    chart computation throws. *)
Theorem sponsorshipChartData_throws (h : Json.value) :
  (sponsorshipChartData h = None <->
   truthy h = true /\ length_is_zero h = false /\
   match h with Json.Arr l => Json.Null ∈ l | _ => True end) /\
  (forall ok status fields st,
      length_is_zero (Json.Obj fields) = false ->
      sponsorshipChartData
        (User.sponsorshipHistory
           (User.handle
              (User.HistorySettled (Response ok status (Some (Json.Obj fields)))) st))
      = None).
Proof.
  split.
  - unfold sponsorshipChartData.
    destruct (truthy h) eqn:Ht, (length_is_zero h) eqn:Hz; simpl;
      try (split; [discriminate|intros (? & ? & _); discriminate]).
    destruct h as [|b|q|s|l|fields]; try (split; [done|done]).
    destruct (null_elem_or_not l) as [Hin|Hnin].
    + rewrite !(mapM_member_null _ l Hin). done.
    + rewrite !(mapM_member _ l Hnin). split; [discriminate|].
      intros (_ & _ & Hin). done.
  - intros ok status fields st Hz. simpl.
    unfold sponsorshipChartData. by rewrite Hz.
Qed.

Lemma sponsorshipChartData_throws_witness :
  length_is_zero (Json.Obj MoreSamples.error_body) = false /\
  sponsorshipChartData
    (User.sponsorshipHistory
       (User.handle
          (User.HistorySettled
             (Response false 404 (Some (Json.Obj MoreSamples.error_body))))
          (User.initialState (Some "42"))))
  = None.
Proof.
  split; [reflexivity|].
  exact (proj2 (sponsorshipChartData_throws Json.Null) false 404
           MoreSamples.error_body (User.initialState (Some "42")) eq_refl).
Defined.

End Charts.

(** ** Loading and user requests of the user detail page *)

Section UserPage.
Import User.

Implicit Types (p : Page) (e : Event) (st : State).

Lemma handle_loading_stays_off e st :
  isLoading st = false -> isLoading (handle e st) = false.
Proof.
  by destruct e as [val|v|i|[|ok status [d|]]|[|[] status [d|]]].
Qed.

(** X11. While the user request of the page has not settled the page
    shows the activity view, the selected interval is W and no user is
    stored: the controls cannot be used before. Once the loading flag is
    down no event raises it again, a change of the id included. *)
Theorem loading_locks_the_controls p :
  reachable p ->
  (isLoading (state p) = true ->
   viewMode (state p) = Activity /\ historyInterval (state p) = "W" /\
   user (state p) = None) /\
  (forall e, isLoading (state p) = false -> isLoading (state (step e p).1) = false).
Proof.
  intros Hreach. split.
  - induction Hreach as [i|p e Hp IH Hpos].
    + unfold mount. rewrite commit_state. done.
    + unfold step. rewrite commit_state. simpl.
      destruct e as [val|v|i|[|ok status [d|]]|[|[] status [d|]]];
        simpl in *; try done.
      * intros Hl. destruct (IH Hl) as (Hv & _). destruct Hpos as [Hs _].
        congruence.
      * intros Hl. congruence.
  - intros e Hl. unfold step. rewrite commit_state. simpl.
    by apply handle_loading_stays_off.
Qed.

Lemma loading_locks_the_controls_witness :
  reachable (mount (Some "42")).1 /\
  viewMode (state (mount (Some "42")).1) = Activity.
Proof.
  assert (reachable (mount (Some "42")).1) as Hreach by apply reachable_mount.
  split; [exact Hreach|].
  exact (proj1 (proj1 (loading_locks_the_controls _ Hreach) eq_refl)).
Defined.

Lemma getUserData_present st :
  present (id st) = true ->
  exists i, id st = Some i /\ getUserData st = [UserRequest i].
Proof.
  unfold getUserData. destruct (id st) as [i|] eqn:Hid; [|done].
  intros _. by exists i.
Qed.

(** The requests of a step of a rendered page. *)
Lemma step_requests p e :
  deps_synced p -> possible e (state p) -> present (id (state p)) = true ->
  exists i',
    id (handle e (state p)) = Some i' /\
    (step e p).2
    = (if decide (id (handle e (state p)) = id (state p)
                  /\ historyInterval (handle e (state p)) = historyInterval (state p))
       then [] else [HistoryRequest i' (historyInterval (handle e (state p)))])
      ++ (if decide (id (handle e (state p)) = id (state p))
          then [] else [UserRequest i']).
Proof.
  intros Hsync Hpos Hpres. destruct (Hsync Hpres) as [Hhd Hud].
  assert (present (id (handle e (state p))) = true) as Hpres'
    by by rewrite (handle_present e (state p) Hpos).
  destruct (fetchHistory_present _ Hpres') as (i' & Hid' & Hreq).
  destruct (getUserData_present _ Hpres') as (i'' & Hid'' & Hreq').
  assert (i'' = i') as -> by congruence.
  exists i'. split; [done|].
  unfold step, commit. simpl. rewrite Hpres', Hhd, Hud, Hreq, Hreq'. simpl.
  f_equal.
  - destruct (decide (Some (id (state p), historyInterval (state p))
                      = Some (id (handle e (state p)),
                              historyInterval (handle e (state p)))))
      as [Hsame|Hdiff];
      destruct (decide (id (handle e (state p)) = id (state p)
                        /\ historyInterval (handle e (state p))
                           = historyInterval (state p)))
      as [Heq|Hne]; try done.
    + exfalso. apply Hne. injection Hsame as -> ->. done.
    + exfalso. apply Hdiff. destruct Heq as [-> ->]. done.
  - destruct (decide (Some (id (state p)) = Some (id (handle e (state p)))))
      as [Hsame|Hdiff];
      destruct (decide (id (handle e (state p)) = id (state p)))
      as [Heq|Hne]; try done.
    + exfalso. apply Hne. by injection Hsame as ->.
    + exfalso. apply Hdiff. by rewrite Heq.
Qed.

(** X12. On a page rendered with an id, an event issues a user request
    exactly when it changes the id, and the request is for the new id; a
    change of the interval or of the view issues none. An event that
    changes the id issues the history request of the new id with the
    selected interval and then its user request, and nothing else. *)
Theorem user_requests_follow_id p e :
  reachable p -> possible e (state p) -> present (id (state p)) = true ->
  let st := state p in
  let st' := state (step e p).1 in
  let rs := (step e p).2 in
  ((exists i, UserRequest i ∈ rs) <-> id st' <> id st) /\
  (forall i, UserRequest i ∈ rs -> id st' = Some i) /\
  (forall val, e = IntervalChange val -> forall i, UserRequest i ∉ rs) /\
  (forall v, e = ViewModeChange v -> rs = []) /\
  (id st' <> id st ->
   exists i', id st' = Some i' /\
              rs = [HistoryRequest i' (historyInterval st'); UserRequest i']).
Proof.
  intros Hreach Hpos Hpres. simpl.
  destruct (reachable_inv p Hreach) as [_ Hsync].
  destruct (step_requests p e Hsync Hpos Hpres) as (i' & Hid' & Hrs).
  assert (state (step e p).1 = handle e (state p)) as ->
    by (unfold step; by rewrite commit_state).
  rewrite Hrs. clear Hrs.
  destruct (decide (id (handle e (state p)) = id (state p))) as [Hid|Hid].
  - assert (forall i, UserRequest i ∉
              (if decide (id (handle e (state p)) = id (state p)
                          /\ historyInterval (handle e (state p))
                             = historyInterval (state p))
               then [] else [HistoryRequest i' (historyInterval (handle e (state p)))])
              ++ []) as Hno.
    { intros i. rewrite app_nil_r. case_decide.
      - apply not_elem_of_nil.
      - rewrite list_elem_of_singleton. discriminate. }
    split; [split; [intros [i Hin]; by apply Hno in Hin|done]|].
    split; [intros i Hin; by apply Hno in Hin|].
    split; [intros val _ i; apply Hno|].
    split; [|done].
    intros v ->. simpl. rewrite app_nil_r. by rewrite decide_True.
  - rewrite decide_False by tauto.
    split.
    { split; [done|]. intros _. exists i'. simpl. by right; left. }
    split.
    { intros i. simpl. rewrite !elem_of_cons, elem_of_nil.
      intros [Hin|[Hin|[]]]; [discriminate|]. congruence. }
    split.
    { intros val ->. simpl in Hid. done. }
    split.
    { intros v ->. simpl in Hid. done. }
    intros _. by exists i'.
Qed.

Lemma user_requests_follow_id_witness :
  reachable Samples.page_42 /\
  possible (RouteChange (Some "43")) (state Samples.page_42) /\
  present (id (state Samples.page_42)) = true /\
  exists i', (step (RouteChange (Some "43")) Samples.page_42).2
             = [HistoryRequest i' "W"; UserRequest i'].
Proof.
  assert (reachable Samples.page_42) as Hreach.
  { unfold Samples.page_42.
    apply reachable_step; [apply reachable_step; [apply reachable_mount|exact I]|].
    reflexivity. }
  assert (possible (RouteChange (Some "43")) (state Samples.page_42)) as Hpos
    by reflexivity.
  split; [exact Hreach|]. split; [exact Hpos|]. split; [reflexivity|].
  destruct (user_requests_follow_id Samples.page_42 (RouteChange (Some "43"))
              Hreach Hpos eq_refl) as (_ & _ & _ & _ & Hchg).
  destruct Hchg as (i' & _ & Hrs); [discriminate|].
  exists i'. exact Hrs.
Defined.

End UserPage.

(** ** Analytics *)

Section AnalyticsProperties.
Import Analytics.

Variable isProd : bool.
Variable GA_ID : option string.

Implicit Types (w : Window) (now : Z).

(** X13. Calling initGtag again changes nothing, whatever the time of
    the second call: the script is added once and the two start entries
    are pushed once. A call never replaces a gtag that is already
    defined, never drops an entry of the dataLayer, adds at most one
    script, and outside production or without a measurement id it leaves
    the window as it is. *)
Theorem initGtag_idempotent now now' w :
  initGtag isProd GA_ID now' (initGtag isProd GA_ID now w) = initGtag isProd GA_ID now w /\
  (gtag w <> None -> initGtag isProd GA_ID now w = w) /\
  (isProd = false \/ set_id GA_ID = false -> initGtag isProd GA_ID now w = w) /\
  (forall dl, dataLayer w = Some dl ->
              exists more, dataLayer (initGtag isProd GA_ID now w) = Some (dl ++ more)) /\
  (exists added, head (initGtag isProd GA_ID now w) = head w ++ added /\
                 (length added <= 1)%nat) /\
  href (initGtag isProd GA_ID now w) = href w.
Proof.
  assert (forall w0, (forall dl, dataLayer w0 = Some dl ->
                       exists more, dataLayer w0 = Some (dl ++ more)) /\
                     (exists added, head w0 = head w0 ++ added /\
                                    (length added <= 1)%nat)) as Hsame.
  { intros w0. split.
    - intros dl ->. exists []. by rewrite app_nil_r.
    - exists []. rewrite app_nil_r. split; [done|simpl; lia]. }
  unfold initGtag.
  destruct (negb isProd || negb (set_id GA_ID)) eqn:Hoff.
  { destruct (Hsame w) as [H1 H2]. repeat split; done. }
  apply orb_false_elim in Hoff as [Hp Hi].
  apply negb_false_iff in Hp, Hi.
  destruct (gtag w) as [g|] eqn:Hg.
  { rewrite Hg. destruct (Hsame w) as [H1 H2]. repeat split; done. }
  cbn [gtag dataLayer head href].
  split; [done|]. split; [done|]. split; [intros [H|H]; congruence|].
  split.
  { intros dl ->. simpl. eexists. reflexivity. }
  split; [|done].
  eexists. split; [reflexivity|]. simpl. lia.
Qed.

Lemma ownGtag_push (args : list Arg) w (dl : list (list Arg)) :
  dataLayer w = Some dl ->
  ownGtag args w
  = Some {| gtag := gtag w; dataLayer := Some (dl ++ [args]);
            head := head w; href := href w |}.
Proof. intros Hdl. unfold ownGtag. by rewrite Hdl. Qed.

Lemma lastHref_cons (v : Visit) (rest : list Visit) w :
  lastHref (v :: rest) w = lastHref rest (navigate (visit_href v) w).
Proof.
  unfold lastHref. rewrite last_cons. simpl. by destruct (last rest).
Qed.

(** Page views pushed through the gtag of initGtag. *)
Lemma pageViews_own (visits : list Visit) :
  isProd = true -> set_id GA_ID = true ->
  forall (sent : bool) w (dl : list (list Arg)),
    gtag w = Some OwnGtag -> dataLayer w = Some dl ->
    pageViews isProd GA_ID visits sent w
    = Some ({| gtag := Some OwnGtag;
               dataLayer := Some (dl ++ map (pageViewEvent GA_ID) visits);
               head := head w; href := lastHref visits w |},
            match visits with [] => sent | _ => true end).
Proof.
  intros Hprod Hid.
  assert (negb isProd || negb (set_id GA_ID) = false) as Hon
    by by rewrite Hprod, Hid.
  induction visits as [|v rest IH]; intros sent w dl Hg Hdl.
  - simpl. rewrite app_nil_r. rewrite <- Hg, <- Hdl. by destruct w.
  - cbn [pageViews]. unfold pageView. rewrite Hon. cbn [navigate gtag]. rewrite Hg.
    rewrite (ownGtag_push _ _ dl); [|done].
    rewrite (IH true _ (dl ++ [pageViewEvent GA_ID v])); [|done|done].
    cbn [head href gtag]. rewrite lastHref_cons.
    change (map (pageViewEvent GA_ID) (v :: rest))
      with ([pageViewEvent GA_ID v] ++ map (pageViewEvent GA_ID) rest).
    rewrite <- app_assoc. unfold lastHref. simpl. by destruct rest.
Qed.

Lemma pageViews_off (visits : list Visit) :
  isProd = false \/ set_id GA_ID = false ->
  forall (sent : bool) w,
    pageViews isProd GA_ID visits sent w
    = Some ({| gtag := gtag w; dataLayer := dataLayer w; head := head w;
               href := lastHref visits w |}, sent).
Proof.
  intros Hoff.
  assert (negb isProd || negb (set_id GA_ID) = true) as Hguard.
  { destruct Hoff as [-> | ->]; [done|]. by rewrite orb_true_r. }
  induction visits as [|v rest IH]; intros sent w.
  - simpl. by destruct w.
  - cbn [pageViews]. unfold pageView. rewrite Hguard.
    rewrite IH, lastHref_cons. done.
Qed.

(** X14. In production with a measurement id, on a window without a
    gtag: after initGtag the page views of any sequence of route changes
    never throw, and the dataLayer then holds what it held before, the js
    and config entries, and one page_view event per route change, in
    order, each with the address the window had at that change as its
    page_location and the path and the query of its location as its
    page_path; no script is added by a page view. Outside production or
    without an id page views push nothing: gtag, dataLayer and scripts
    stay as they are. *)
Theorem pageViews_after_initGtag
    (visits : list Visit) (sent : bool) now w :
  (isProd = true -> set_id GA_ID = true -> gtag w = None ->
   exists w',
     pageViews isProd GA_ID visits sent (initGtag isProd GA_ID now w)
     = Some (w', match visits with [] => sent | _ => true end) /\
     dataLayer w'
     = Some (default [] (dataLayer w)
               ++ [[ArgStr "js"; ArgDate now]; [ArgStr "config"; ArgStr (default "" GA_ID)]]
               ++ map (fun v =>
                         [ArgStr "event"; ArgStr "page_view";
                          ArgObj [("page_location", visit_href v);
                                  ("page_path", pathname v +:+ search v);
                                  ("send_to", default "" GA_ID)]])
                    visits) /\
     head w' = head (initGtag isProd GA_ID now w) /\
     length (head w') = S (length (head w)) /\
     href w' = default (href w) (visit_href <$> last visits)) /\
  (isProd = false \/ set_id GA_ID = false ->
   exists w',
     pageViews isProd GA_ID visits sent w = Some (w', sent) /\
     gtag w' = gtag w /\ dataLayer w' = dataLayer w /\ head w' = head w /\
     href w' = default (href w) (visit_href <$> last visits)).
Proof.
  split.
  - intros Hprod Hid Hg.
    assert (negb isProd || negb (set_id GA_ID) = false) as Hon
      by by rewrite Hprod, Hid.
    eexists. split.
    + apply (pageViews_own visits Hprod Hid sent _
               (default [] (dataLayer w) ++ [[ArgStr "js"; ArgDate now]]
                  ++ [[ArgStr "config"; ArgStr (default "" GA_ID)]])).
      * unfold initGtag. by rewrite Hon, Hg.
      * unfold initGtag. by rewrite Hon, Hg.
    + unfold initGtag. rewrite Hon, Hg. cbn [dataLayer head href].
      split; [by rewrite <- !app_assoc|]. split; [done|].
      split; [rewrite length_app; simpl; lia|done].
  - intros Hoff. eexists. split; [by apply pageViews_off|]. done.
Qed.

End AnalyticsProperties.

Section AnalyticsWitness.
Import Analytics.

Lemma initGtag_idempotent_witness :
  initGtag true (Some "G-TEST") 1700000000500
    (initGtag true (Some "G-TEST") 1700000000000 MoreSamples.fresh_window)
  = initGtag true (Some "G-TEST") 1700000000000 MoreSamples.fresh_window /\
  length (head (initGtag true (Some "G-TEST") 1700000000000 MoreSamples.fresh_window))
  = 1%nat.
Proof.
  split; [|reflexivity].
  exact (proj1 (initGtag_idempotent true (Some "G-TEST") 1700000000000
                  1700000000500 MoreSamples.fresh_window)).
Defined.

Lemma pageViews_after_initGtag_witness :
  exists w',
    pageViews true (Some "G-TEST") MoreSamples.two_visits false
      (initGtag true (Some "G-TEST") 1700000000000 MoreSamples.fresh_window)
    = Some (w', true) /\
    length (head w') = 1%nat /\
    href w' = "https://example.org/".
Proof.
  destruct (proj1 (pageViews_after_initGtag true (Some "G-TEST")
                     MoreSamples.two_visits false
                     1700000000000 MoreSamples.fresh_window)
              eq_refl eq_refl eq_refl) as (w' & Hrun & _ & _ & Hlen & Hhref).
  exists w'. split; [exact Hrun|]. split; [exact Hlen|exact Hhref].
Defined.

(** Each event carries the address of its own route change. *)
Example pageViews_two_visits :
  (fun r => dataLayer r.1) <$>
    pageViews true (Some "G-TEST") MoreSamples.two_visits false
      (initGtag true (Some "G-TEST") 1700000000000 MoreSamples.fresh_window)
  = Some (Some
      [ [ArgStr "js"; ArgDate 1700000000000];
        [ArgStr "config"; ArgStr "G-TEST"];
        [ArgStr "event"; ArgStr "page_view";
         ArgObj [("page_location", "https://example.org/user/42?tab=a");
                 ("page_path", "/user/42?tab=a"); ("send_to", "G-TEST")]];
        [ArgStr "event"; ArgStr "page_view";
         ArgObj [("page_location", "https://example.org/");
                 ("page_path", "/"); ("send_to", "G-TEST")]] ]).
Proof. reflexivity. Qed.

End AnalyticsWitness.
